(** * FastGrep: a shallow embedding of FastGrep.py

    The development follows the layout of the program: the Python
    built-ins the program calls (bytes.split, list.pop, str.split,
    str.endswith), the operating-system and library interface it runs
    against, the three stream searchers, the parallel dispatcher with its
    aggregation, and the orchestrator.  Theorems come after all
    definitions. *)

From Stdlib Require Import String Ascii List ZArith Lia Bool Arith.
From Stdlib Require Import Permutation Sorted DecimalString.
From Stdlib.Strings Require Import Byte.
From Equations Require Import Equations.
Import ListNotations.

Local Open Scope string_scope.
Local Open Scope list_scope.

(** Concatenation of [str], as in an f-string or [+]; [++] is kept for
    lists. *)
Infix "^" := String.append : string_scope.

(** ** Data *)

(** A Python [bytes] object. *)
Definition bytes := list byte.

(** A Python [str].  Text is held as the sequence of its UTF-8 code units,
    so that every operation the program performs on [str] (concatenation,
    comparison with ASCII literals, splitting on an ASCII colon, suffix
    tests against ASCII literals) has its Python meaning. *)
Definition str := string.

(** The byte of [b"\n"]. *)
Definition nl : byte := x0a.

(** Outcome of a call that may raise: the value, or the text [str(e)] of
    the exception. *)
Inductive result (A : Type) : Type :=
| Ok (a : A)
| Raised (e : str).
Arguments Ok {A} a.
Arguments Raised {A} e.

(** [# in bytes : 64KB -> 65536] *)
#[warnings="-abstract-large-number"]
Definition CHUNK_SIZE : nat := 65536.

(** ** Python built-ins used by the program *)

(** [s.split(sep)] for a one-byte separator: always a non-empty list, one
    more piece than there are separators. *)
Fixpoint bytes_split (sep : byte) (s : bytes) : list bytes :=
  match s with
  | [] => [[]]
  | c :: s' =>
      if Byte.eqb c sep then [] :: bytes_split sep s'
      else match bytes_split sep s' with
           | piece :: pieces => (c :: piece) :: pieces
           | [] => [[c]]
           end
  end.

(** [s.split(sep)] on [str], one-character separator. *)
Fixpoint str_split (sep : ascii) (s : str) : list str :=
  match s with
  | EmptyString => [EmptyString]
  | String c s' =>
      if Ascii.eqb c sep then EmptyString :: str_split sep s'
      else match str_split sep s' with
           | piece :: pieces => String c piece :: pieces
           | [] => [String c EmptyString]
           end
  end.

(** [l.pop()]: removes and returns the last item; [None] stands for the
    IndexError raised on an empty list. *)
Definition pop {A : Type} (l : list A) : option (list A * A) :=
  match l with
  | [] => None
  | x :: _ => Some (removelast l, last l x)
  end.

(** [s.endswith(suffix)] *)
Definition endswith (s suffix : str) : bool :=
  let n := String.length s in
  let m := String.length suffix in
  Nat.leb m n && String.eqb (substring (n - m) m s) suffix.

(** [str(n)] for a non-negative int. *)
Definition str_of_nat (n : nat) : str :=
  NilEmpty.string_of_uint (Nat.to_uint n).

(** ["\n".join(l)] *)
Fixpoint join_nl (l : list str) : str :=
  match l with
  | [] => ""
  | [x] => x
  | x :: rest => x ^ String "010" (join_nl rest)
  end.

(** ** Files *)

(** An open binary file object: the bytes not yet read and, when the
    underlying medium is defective, the distance from the current position
    to the first offset that cannot be delivered together with the text of
    the exception raised there. *)
Record handle : Type := {
  h_rest : bytes;
  h_fault : option (nat * str)
}.

(** [f.read(size)]: up to [size] bytes, fewer only at end of file, [b""]
    at end of file; raises when the requested range reaches the fault. *)
Definition read (size : nat) (f : handle) : result (bytes * handle) :=
  match h_fault f with
  | Some (k, e) =>
      if Nat.ltb k size then Raised e
      else Ok (firstn size (h_rest f),
               {| h_rest := skipn size (h_rest f); h_fault := Some (k - size, e) |})
  | None =>
      Ok (firstn size (h_rest f),
          {| h_rest := skipn size (h_rest f); h_fault := None |})
  end.

(** A regular file: its content, whether opening it fails (permissions),
    and a possible read fault. *)
Record regular : Type := {
  r_content : bytes;
  r_open_error : option str;
  r_read_fault : option (nat * str)
}.

(** A directory carries the joined paths [os.path.join(root, name)] that
    [os.walk] yields for it, in walk order. *)
Inductive node : Type :=
| File (r : regular)
| Directory (walk : list str).

Record filesystem : Type := {
  lookup : str -> option node;
  (** [Some e]: opening the path for writing raises [e]. *)
  write_error : str -> option str;
  (** [Some (e, remains)]: the path opens for writing, which empties it, but
      writing the given text to it (or closing it afterwards) raises [e],
      as for a text the encoding of the file cannot express or a full
      disk, and leaves [remains] in the file. *)
  write_fault : str -> str -> option (str * str)
}.

(** [os.path.isfile(path)] *)
Definition isfile (fs : filesystem) (path : str) : bool :=
  match lookup fs path with
  | Some (File _) => true
  | _ => false
  end.

(** [os.path.isdir(path)] *)
Definition isdir (fs : filesystem) (path : str) : bool :=
  match lookup fs path with
  | Some (Directory _) => true
  | _ => false
  end.

(** [open(filename, 'rb')] *)
Definition open_rb (fs : filesystem) (filename : str) : result handle :=
  match lookup fs filename with
  | Some (File r) =>
      match r_open_error r with
      | Some e => Raised e
      | None => Ok {| h_rest := r_content r; h_fault := r_read_fault r |}
      end
  | Some (Directory _) => Raised ("[Errno 21] Is a directory: '" ^ filename ^ "'")
  | None => Raised ("[Errno 2] No such file or directory: '" ^ filename ^ "'")
  end.

(** ** Library interface

    The modules [re], [bz2], [gzip] and [concurrent.futures] and the
    codec behind [bytes.decode] are not part of the program; the program
    is modelled over any implementation of the operations it calls. *)
Class PyLib : Type := {
  (** a compiled pattern object *)
  Pattern : Type;
  (** [re.compile(pattern.encode(), flags)] with [flags = re.IGNORECASE]
      exactly when the boolean is set; raises on a malformed pattern *)
  re_compile : str -> bool -> result Pattern;
  (** truth value of [compiledPattern.search(line)] *)
  re_search : Pattern -> bytes -> bool;
  (** [line.decode(errors='ignore')] *)
  decode_ignore : bytes -> str;
  (** [s.strip()] *)
  strip : str -> str;
  (** state of a [bz2.BZ2Decompressor] object *)
  BZ2Decompressor : Type;
  (** [bz2.BZ2Decompressor()] *)
  bz2_new : BZ2Decompressor;
  (** [decompressor.decompress(chunk)]: the decoded bytes and the updated
      object, or the exception *)
  bz2_decompress : BZ2Decompressor -> bytes -> result (bytes * BZ2Decompressor);
  (** [gzip.GzipFile(fileobj=infile)]: a file object over the inflated
      data, with a fault where inflating fails *)
  GzipFile : handle -> handle;
  (** What reaches standard output from the workers of a
      [ProcessPoolExecutor(max_workers)], given what each call printed, in
      the order of submission.  The workers run side by side and write to
      the standard output they share as they go, so that the order of
      their lines is decided by the pool and the system, not by the
      program. *)
  pool_stdout : Z -> list (list str) -> list str
}.

(** ** Effects

    A call prints lines on standard output and either returns a value or
    lets an exception escape.  Standard output is taken to be
    line-buffered, as on a terminal: a line is out when [print] returns,
    so that the lines of one process appear in the order of its calls. *)
Definition io (A : Type) : Type := (list str * result A)%type.

Definition ret {A : Type} (a : A) : io A := ([], Ok a).

Definition bind {A B : Type} (m : io A) (k : A -> io B) : io B :=
  match m with
  | (out, Ok a) => let (out', r) := k a in (out ++ out', r)
  | (out, Raised e) => (out, Raised e)
  end.

(** [print(s)]; writing to standard output is taken to succeed. *)
Definition print (s : str) : io unit := ([s], Ok tt).

Notation "x <- m ;; k" := (bind m (fun x => k))
  (at level 61, m at next level, right associativity).

(** One pass through a loop body: either the loop goes on from a new
    state, or the function is left with the list it returns. *)
Inductive step_result (S : Type) : Type :=
| Continue (s : S)
| Return (retVal : list str).
Arguments Continue {S} s.
Arguments Return {S} retVal.

Definition inspect {A : Type} (a : A) : {b : A | a = b} := exist _ a eq_refl.

(** ** Stream searchers *)

Section StreamSearcher.
Context {lib : PyLib}.

(** [f"{filename}:{line.decode(errors='ignore').strip()}"] *)
Definition match_record (filename : str) (line : bytes) : str :=
  filename ^ ":" ^ strip (decode_ignore line).

(** [f"[ERROR] Could not read {filename}: {e}"] *)
Definition error_record (filename e : str) : str :=
  "[ERROR] Could not read " ^ filename ^ ": " ^ e.

(** [for line in lines: if compiledPattern.search(line): retVal.append(...)] *)
Fixpoint scan_lines (compiledPattern : Pattern) (filename : str)
    (lines : list bytes) (retVal : list str) : list str :=
  match lines with
  | [] => retVal
  | line :: lines' =>
      scan_lines compiledPattern filename lines'
        (if re_search compiledPattern line
         then retVal ++ [match_record filename line]
         else retVal)
  end.

(** The variables live across the [while chunk:] loop of SearchInFlat
    (lines 200-210) and of SearchInGz (lines 306-316); the two loops
    differ only in the file object read from. *)
Record read_state : Type := {
  rs_infile : handle;
  rs_buffer : bytes;
  rs_chunk : bytes;
  rs_retVal : list str
}.

(** The loop test and one pass through the body.  An exception leaves
    through the [except] clause, which appends the error record before
    [return retVal]. *)
Definition read_step (size : nat) (compiledPattern : Pattern) (filename : str)
    (s : read_state) : step_result read_state :=
  match rs_chunk s with
  | [] => Return (rs_retVal s)
  | _ :: _ =>
      let buffer := rs_buffer s ++ rs_chunk s in
      match pop (bytes_split nl buffer) with
      | None => Return (rs_retVal s ++ [error_record filename "pop from empty list"])
      | Some (lines, buffer) =>
          let retVal := scan_lines compiledPattern filename lines (rs_retVal s) in
          match read size (rs_infile s) with
          | Raised e => Return (retVal ++ [error_record filename e])
          | Ok (chunk, infile) =>
              Continue {| rs_infile := infile; rs_buffer := buffer;
                          rs_chunk := chunk; rs_retVal := retVal |}
          end
      end
  end.

Equations? read_loop (size : nat) (compiledPattern : Pattern) (filename : str)
    (s : read_state) : list str
  by wf (length (rs_chunk s) + length (h_rest (rs_infile s))) lt :=
  read_loop size compiledPattern filename s
    with inspect (read_step size compiledPattern filename s) := {
    | exist _ (Return retVal) _ => retVal;
    | exist _ (Continue s') eq => read_loop size compiledPattern filename s' }.
Proof.
  unfold read_step, read in eq.
  destruct (rs_chunk s) as [|b chunk]; [discriminate|].
  destruct (pop _) as [[lines buffer]|]; [|discriminate].
  destruct (h_fault (rs_infile s)) as [[k e]|];
    [destruct (Nat.ltb k size); [discriminate|]|];
    injection eq as <-; simpl;
    rewrite <- (firstn_skipn size (h_rest (rs_infile s))) at 3;
    rewrite length_app; lia.
Qed.

(** The variables live across the [while chunk:] loop of SearchInBz2
    (lines 252-262). *)
Record bz2_state : Type := {
  bs_decompressor : BZ2Decompressor;
  bs_infile : handle;
  bs_buffer : bytes;
  bs_chunk : bytes;
  bs_retVal : list str
}.

(** The chunk tested and read is the compressed one; what is appended to
    the buffer is what the decompressor returns for it. *)
Definition bz2_step (size : nat) (compiledPattern : Pattern) (filename : str)
    (s : bz2_state) : step_result bz2_state :=
  match bs_chunk s with
  | [] => Return (bs_retVal s)
  | _ :: _ =>
      match bz2_decompress (bs_decompressor s) (bs_chunk s) with
      | Raised e => Return (bs_retVal s ++ [error_record filename e])
      | Ok (data, decompressor) =>
          let buffer := bs_buffer s ++ data in
          match pop (bytes_split nl buffer) with
          | None =>
              Return (bs_retVal s ++ [error_record filename "pop from empty list"])
          | Some (lines, buffer) =>
              let retVal := scan_lines compiledPattern filename lines (bs_retVal s) in
              match read size (bs_infile s) with
              | Raised e => Return (retVal ++ [error_record filename e])
              | Ok (chunk, infile) =>
                  Continue {| bs_decompressor := decompressor; bs_infile := infile;
                              bs_buffer := buffer; bs_chunk := chunk;
                              bs_retVal := retVal |}
              end
          end
      end
  end.

Equations? bz2_loop (size : nat) (compiledPattern : Pattern) (filename : str)
    (s : bz2_state) : list str
  by wf (length (bs_chunk s) + length (h_rest (bs_infile s))) lt :=
  bz2_loop size compiledPattern filename s
    with inspect (bz2_step size compiledPattern filename s) := {
    | exist _ (Return retVal) _ => retVal;
    | exist _ (Continue s') eq => bz2_loop size compiledPattern filename s' }.
Proof.
  unfold bz2_step, read in eq.
  destruct (bs_chunk s) as [|b chunk]; [discriminate|].
  destruct (bz2_decompress _ _) as [[data decompressor]|]; [|discriminate].
  destruct (pop _) as [[lines buffer]|]; [|discriminate].
  destruct (h_fault (bs_infile s)) as [[k e]|];
    [destruct (Nat.ltb k size); [discriminate|]|];
    injection eq as <-; simpl;
    rewrite <- (firstn_skipn size (h_rest (bs_infile s))) at 3;
    rewrite length_app; lia.
Qed.

(** SearchInFlat (lines 183-215), with the chunk size as a parameter. *)
Definition SearchInFlat (size : nat) (fs : filesystem)
    (filename pattern : str) (ignore_case : bool) : io (list str) :=
  if negb (isfile fs filename) then
    (["[ERROR] File not found: " ^ filename], Ok [])
  else
    match re_compile pattern ignore_case with
    | Raised e => ([], Raised e)
    | Ok compiledPattern =>
        match open_rb fs filename with
        | Raised e => ([], Ok [error_record filename e])
        | Ok infile =>
            match read size infile with
            | Raised e => ([], Ok [error_record filename e])
            | Ok (chunk, infile) =>
                ([], Ok (read_loop size compiledPattern filename
                           {| rs_infile := infile; rs_buffer := [];
                              rs_chunk := chunk; rs_retVal := [] |}))
            end
        end
    end.

(** SearchInBz2 (lines 234-267). *)
Definition SearchInBz2 (size : nat) (fs : filesystem)
    (filename pattern : str) (ignore_case : bool) : io (list str) :=
  if negb (isfile fs filename) then
    (["[ERROR] File not found: " ^ filename], Ok [])
  else
    match re_compile pattern ignore_case with
    | Raised e => ([], Raised e)
    | Ok compiledPattern =>
        let decompressor := bz2_new in
        match open_rb fs filename with
        | Raised e => ([], Ok [error_record filename e])
        | Ok infile =>
            match read size infile with
            | Raised e => ([], Ok [error_record filename e])
            | Ok (chunk, infile) =>
                ([], Ok (bz2_loop size compiledPattern filename
                           {| bs_decompressor := decompressor; bs_infile := infile;
                              bs_buffer := []; bs_chunk := chunk;
                              bs_retVal := [] |}))
            end
        end
    end.

(** SearchInGz (lines 286-321). *)
Definition SearchInGz (size : nat) (fs : filesystem)
    (filename pattern : str) (ignore_case : bool) : io (list str) :=
  if negb (isfile fs filename) then
    (["[ERROR] File not found: " ^ filename], Ok [])
  else
    match re_compile pattern ignore_case with
    | Raised e => ([], Raised e)
    | Ok compiledPattern =>
        match open_rb fs filename with
        | Raised e => ([], Ok [error_record filename e])
        | Ok infile =>
            let gzfile := GzipFile infile in
            match read size gzfile with
            | Raised e => ([], Ok [error_record filename e])
            | Ok (chunk, gzfile) =>
                ([], Ok (read_loop size compiledPattern filename
                           {| rs_infile := gzfile; rs_buffer := [];
                              rs_chunk := chunk; rs_retVal := [] |}))
            end
        end
    end.

End StreamSearcher.

(** ** Encoding classifier *)

(** DetectFileType (lines 114-123). *)
Definition DetectFileType (filename : str) : str :=
  if endswith filename ".bz2" then "bz"
  else if endswith filename ".gz" then "gz"
  else "txt".

(** ** Worker pool dispatcher and result aggregation *)

(** A search function as handed to the dispatcher:
    [func(filename, pattern, ignore_case)]. *)
Definition search_func : Type := str -> str -> bool -> io (list str).

(** [executor.map(func, files, [pattern] * len(files), [ignoreCase] * len(files))]:
    the argument lists are zipped and the i-th result is that of the i-th
    triple, whatever the order in which the workers finish. *)
Definition executor_map (func : search_func) (files : list str)
    (patterns : list str) (flags : list bool) : list (io (list str)) :=
  map (fun '(file, (pattern, ignoreCase)) => func file pattern ignoreCase)
      (combine files (combine patterns flags)).

(** [f"{matches[0].split(':')[0]}:{len(matches)}"] (line 158), for a
    non-empty [matches]. *)
Definition count_record (matches : list str) : str :=
  nth 0 (str_split ":" (nth 0 matches "")) "" ^ ":" ^ str_of_nat (length matches).

(** [for matches in results:] (lines 154-161).  Taking a result whose call
    raised re-raises the exception in the caller. *)
Fixpoint gather (countOnly : bool) (results : list (io (list str)))
    (retVal : list str) : result (list str) :=
  match results with
  | [] => Ok retVal
  | (_, Raised e) :: _ => Raised e
  | (_, Ok matches) :: results' =>
      gather countOnly results'
        (match matches with
         | [] => retVal
         | _ :: _ =>
             if countOnly then retVal ++ [count_record matches]
             else retVal ++ matches
         end)
  end.

(** SearchFilesInParallel (lines 147-163).  The pool refuses a worker
    bound that is not positive.  The function itself prints nothing; what
    its workers print reaches standard output in the order the pool
    decides. *)
Definition SearchFilesInParallel {lib : PyLib} (func : search_func)
    (files : list str) (pattern : str) (ignoreCase countOnly : bool)
    (buffPonies : Z) : io (list str) :=
  if (buffPonies <=? 0)%Z then ([], Raised "max_workers must be greater than 0")
  else
    let results :=
      executor_map func files (repeat pattern (length files))
                   (repeat ignoreCase (length files)) in
    (pool_stdout buffPonies (map fst results), gather countOnly results []).

(** ** Command line *)

(** The value of [args.workers] (line 59): the default expression
    [max(1, os.cpu_count() - 1)] is evaluated when the option is declared,
    so it raises when the core count is unknown ([None]) even if [-w] is
    given. *)
Definition ParseArgs_workers (cpu_count : option Z) (w : option Z) : result Z :=
  match cpu_count with
  | None => Raised "unsupported operand type(s) for -: 'NoneType' and 'int'"
  | Some n =>
      let default := Z.max 1 (n - 1) in
      Ok (match w with Some N => N | None => default end)
  end.

(** The namespace returned by ParseArgs. *)
Record Args : Type := {
  arg_pattern : option str;
  arg_files : list str;
  arg_ignore_case : bool;
  arg_recursive : bool;
  arg_count : bool;
  arg_output : option str;
  arg_workers : Z;
  arg_help : bool
}.

(** The double-quote character of the help text. *)
Definition dquote : str := String "034" "".

(** DisplayHelp (lines 78-95). *)
Definition DisplayHelp : io unit :=
  (["Usage: FastGrep.py [OPTIONS] <pattern> <file1.bz2> [file2.bz2 ...]";
    "";
    "Search for a regex pattern inside compressed .bz2 files using parallel processing.";
    "";
    "Options:";
    "  -i, --ignore-case      Perform a case-insensitive search.";
    "  -r, --recursive        Search .bz2 files in directories recursively.";
    "  -c, --count            Print the number of matching lines per file.";
    "  -o, --output <file>    Save search results to a specified file.";
    "  -w, --workers <N>      Set the number of CPU cores to use (default: auto).";
    "  -h, --help             Show this help message and exit.";
    "";
    "Examples:";
    "  FastGrep.py " ^ dquote ^ "error" ^ dquote ^ " logs1.bz2 logs2.bz2";
    "  FastGrep.py -i " ^ dquote ^ "failure" ^ dquote ^ " logs_*.bz2";
    "  FastGrep.py -o results.txt " ^ dquote ^ "critical failure" ^ dquote
      ^ " logs_*.bz2"], Ok tt).

(** ** Orchestrator *)

(** Truth value of an optional [str]: [None] and [''] are false. *)
Definition truthy (s : option str) : bool :=
  match s with
  | Some (String _ _) => true
  | _ => false
  end.

(** [os.walk] over a directory, flattened to the joined paths. *)
Definition walk (fs : filesystem) (path : str) : list str :=
  match lookup fs path with
  | Some (Directory names) => names
  | _ => []
  end.

(** Lines 455-468: the warnings printed and [allFiles]. *)
Fixpoint resolve_paths (fs : filesystem) (recursive : bool) (files : list str)
    (allFiles : list str) : io (list str) :=
  match files with
  | [] => ret allFiles
  | path :: files' =>
      if isdir fs path && recursive then
        resolve_paths fs recursive files' (allFiles ++ walk fs path)
      else if isfile fs path then
        resolve_paths fs recursive files' (allFiles ++ [path])
      else
        _ <- print ("[WARNING] Skipping invalid path: " ^ path) ;;
        resolve_paths fs recursive files' allFiles
  end.

(** Lines 474-489. *)
Fixpoint classify (allFiles bzFiles gzFiles flatFiles : list str)
    : list str * list str * list str :=
  match allFiles with
  | [] => (bzFiles, gzFiles, flatFiles)
  | file :: allFiles' =>
      let fileType := DetectFileType file in
      if String.eqb fileType "bz" then
        classify allFiles' (bzFiles ++ [file]) gzFiles flatFiles
      else if String.eqb fileType "gz" then
        classify allFiles' bzFiles (gzFiles ++ [file]) flatFiles
      else
        classify allFiles' bzFiles gzFiles (flatFiles ++ [file])
  end.

Section Orchestrator.
Context {lib : PyLib}.

(** One of the three guarded passes of lines 491-498:
    [if files: matchedLines += SearchFilesInParallel(func, files, ...)]. *)
Definition pass (func : search_func) (files : list str) (pattern : str)
    (ignoreCase countOnly : bool) (buffPonies : Z) (matchedLines : list str)
    : io (list str) :=
  match files with
  | [] => ret matchedLines
  | _ :: _ =>
      found <- SearchFilesInParallel func files pattern ignoreCase countOnly buffPonies ;;
      ret (matchedLines ++ found)
  end.

(** Lines 474-498: classification, then the passes in program order. *)
Definition search_all (fs : filesystem) (allFiles : list str) (pattern : str)
    (ignoreCase countOnly : bool) (buffPonies : Z) : io (list str) :=
  let '(bzFiles, gzFiles, flatFiles) := classify allFiles [] [] [] in
  matchedLines <- pass (SearchInBz2 CHUNK_SIZE fs) bzFiles pattern ignoreCase
                    countOnly buffPonies [] ;;
  matchedLines <- pass (SearchInGz CHUNK_SIZE fs) gzFiles pattern ignoreCase
                    countOnly buffPonies matchedLines ;;
  pass (SearchInFlat CHUNK_SIZE fs) flatFiles pattern ignoreCase
    countOnly buffPonies matchedLines.

(** Main (lines 433-511).  The value is the output file as the run leaves
    it, if the run opened one, as (path, text). *)
Definition Main (fs : filesystem) (args : Args) : io (option (str * str)) :=
  if arg_help args || negb (truthy (arg_pattern args))
     || match arg_files args with [] => true | _ :: _ => false end
  then
    _ <- DisplayHelp ;; ret None
  else
    let pattern := match arg_pattern args with Some p => p | None => "" end in
    allFiles <- resolve_paths fs (arg_recursive args) (arg_files args) [] ;;
    matchedLines <- search_all fs allFiles pattern (arg_ignore_case args)
                      (arg_count args) (arg_workers args) ;;
    if truthy (arg_output args) then
      let outputFile := match arg_output args with Some o => o | None => "" end in
      let text := join_nl matchedLines ^ String "010" "" in
      match write_error fs outputFile with
      | Some e =>
          _ <- print ("[ERROR] Could not write to output file: " ^ e) ;;
          ret None
      | None =>
          match write_fault fs outputFile text with
          | Some (e, remains) =>
              _ <- print ("[ERROR] Could not write to output file: " ^ e) ;;
              ret (Some (outputFile, remains))
          | None => ret (Some (outputFile, text))
          end
      end
    else
      match matchedLines with
      | [] => ret None
      | _ :: _ => _ <- print (join_nl matchedLines) ;; ret None
      end.

End Orchestrator.

(** ** An executable library

    An implementation of the library interface that runs inside Rocq, used
    to execute the program on concrete inputs.  Patterns are literal
    (letters, digits, space and underscore, on which [re] is substring
    search) and every other pattern is rejected the way [re.compile]
    rejects a malformed one; text is ASCII; the two containers hold the
    data stored behind a magic number. *)
Module Stored.

Definition is_literal (c : ascii) : bool :=
  let n := nat_of_ascii c in
  (Nat.leb 48 n && Nat.leb n 57) || (Nat.leb 65 n && Nat.leb n 90)
  || (Nat.leb 97 n && Nat.leb n 122) || Nat.eqb n 32 || Nat.eqb n 95.

Fixpoint all_literal (s : str) : bool :=
  match s with
  | EmptyString => true
  | String c s' => is_literal c && all_literal s'
  end.

Definition lower (b : byte) : byte :=
  let n := Byte.to_nat b in
  if Nat.leb 65 n && Nat.leb n 90 then
    match Byte.of_nat (n + 32) with Some b' => b' | None => b end
  else b.

Fixpoint starts_with (p s : bytes) : bool :=
  match p, s with
  | [], _ => true
  | _ :: _, [] => false
  | x :: p', y :: s' => Byte.eqb x y && starts_with p' s'
  end.

Fixpoint contains (p s : bytes) : bool :=
  starts_with p s ||
  match s with
  | [] => false
  | _ :: s' => contains p s'
  end.

Record literal : Type := { lit_text : bytes; lit_ignore_case : bool }.

Definition compile (pattern : str) (ignore_case : bool) : result literal :=
  if all_literal pattern then
    Ok {| lit_text := list_byte_of_string pattern; lit_ignore_case := ignore_case |}
  else Raised ("bad pattern: " ^ pattern).

Definition search (p : literal) (line : bytes) : bool :=
  if lit_ignore_case p then contains (map lower (lit_text p)) (map lower line)
  else contains (lit_text p) line.

Definition decode (line : bytes) : str :=
  string_of_list_byte (filter (fun b => Nat.ltb (Byte.to_nat b) 128) line).

Definition is_space (c : ascii) : bool :=
  let n := nat_of_ascii c in
  (Nat.leb 9 n && Nat.leb n 13) || (Nat.leb 28 n && Nat.leb n 32).

Fixpoint lstrip (s : str) : str :=
  match s with
  | EmptyString => EmptyString
  | String c s' => if is_space c then lstrip s' else s
  end.

Fixpoint rstrip (s : str) : str :=
  match s with
  | EmptyString => EmptyString
  | String c s' =>
      match rstrip s' with
      | EmptyString => if is_space c then EmptyString else String c EmptyString
      | r => String c r
      end
  end.

Definition bz2_magic : bytes := list_byte_of_string "BZh".
Definition gzip_magic : bytes := [x1f; x8b].

(** The decompressor state is the part of the magic number still
    awaited; once it is seen the data passes through. *)
Fixpoint decompress (awaited chunk : bytes) : result (bytes * bytes) :=
  match awaited with
  | [] => Ok (chunk, [])
  | m :: awaited' =>
      match chunk with
      | [] => Ok ([], awaited)
      | c :: chunk' =>
          if Byte.eqb m c then decompress awaited' chunk'
          else Raised "Invalid data stream"
      end
  end.

Definition gzip_open (infile : handle) : handle :=
  match h_rest infile with
  | x1f :: x8b :: data =>
      {| h_rest := data;
         h_fault := option_map (fun '(k, e) => (k - 2, e)) (h_fault infile) |}
  | _ => {| h_rest := []; h_fault := Some (0, "Not a gzipped file") |}
  end.

Definition lib : PyLib := {|
  Pattern := literal;
  re_compile := compile;
  re_search := search;
  decode_ignore := decode;
  strip := fun s => rstrip (lstrip s);
  BZ2Decompressor := bytes;
  bz2_new := bz2_magic;
  bz2_decompress := decompress;
  GzipFile := gzip_open;
  pool_stdout := fun _ printed => concat printed
|}.

Definition bz2_compress (data : bytes) : bytes := bz2_magic ++ data.
Definition gzip_compress (data : bytes) : bytes := gzip_magic ++ data.

(** Text of newline-terminated lines. *)
Definition text (lines : list str) : bytes :=
  concat (map (fun l => list_byte_of_string l ++ [nl]) lines).

(** A readable regular file. *)
Definition plain_file (content : bytes) : node :=
  File {| r_content := content; r_open_error := None; r_read_fault := None |}.

(** A file system given by its directory entries; every output path is
    writable and every write succeeds. *)
Definition disk (entries : list (str * node)) : filesystem := {|
  lookup := fun path =>
    option_map snd (find (fun entry => String.eqb (fst entry) path) entries);
  write_error := fun _ => None;
  write_fault := fun _ _ => None
|}.

End Stored.


(** ** Notions used in the statements *)

Definition no_newline (s : bytes) : Prop := ~ In nl s.

(** The pieces of [data] that a newline closes, in order, as
    [data.split(b"\n")] without its last item gives them. *)
Definition complete_lines (data : bytes) : list bytes :=
  removelast (bytes_split nl data).

(** What follows the last newline of [data]. *)
Definition fragment (data : bytes) : bytes :=
  last (bytes_split nl data) [].

(** The content made of the given lines, each closed by a newline. *)
Definition unlines (lines : list bytes) : bytes :=
  concat (map (fun line => line ++ [nl]) lines).

(** The newline-terminated lines of a content read off in one pass from
    left to right, without any splitting into chunks: [line] collects the
    bytes since the last newline. *)
Fixpoint terminated_from (line data : bytes) : list bytes :=
  match data with
  | [] => []
  | c :: data' =>
      if Byte.eqb c nl then line :: terminated_from [] data'
      else terminated_from (line ++ [c]) data'
  end.

Definition terminated_lines (data : bytes) : list bytes :=
  terminated_from [] data.

(** The successive chunks [f.read(size)] cuts a content into. *)
Equations? chunks (size : nat) (data : bytes) : list bytes
  by wf (length data) lt :=
  chunks size data with inspect (firstn size data) := {
    | exist _ [] _ => [];
    | exist _ (b :: chunk) eq => (b :: chunk) :: chunks size (skipn size data) }.
Proof.
  rewrite <- (firstn_skipn size data) at 2.
  rewrite length_app, eq. simpl. lia.
Qed.

Section Streams.
Context {lib : PyLib}.

(** The records of the lines the pattern is found in. *)
Definition matching_records (compiledPattern : Pattern) (filename : str)
    (lines : list bytes) : list str :=
  map (match_record filename) (filter (re_search compiledPattern) lines).

(** The error record of a stream that ended in an exception. *)
Definition failure_records (filename : str) (failure : option str) : list str :=
  match failure with
  | Some e => [error_record filename e]
  | None => []
  end.

(** What a searcher makes of a stream: the records of the closed lines
    the pattern is found in, then the error record if the stream failed. *)
Definition stream_records (compiledPattern : Pattern) (filename : str)
    (stream : bytes * option str) : list str :=
  matching_records compiledPattern filename (complete_lines (fst stream))
  ++ failure_records filename (snd stream).

(** What a file object hands over to a caller that calls [read(size)]
    until it gets [b""] or an exception: the bytes, and the exception if
    there was one. *)
Equations? delivered (size : nat) (f : handle) : bytes * option str
  by wf (length (h_rest f)) lt :=
  delivered size f with inspect (read size f) := {
    | exist _ (Raised e) _ => ([], Some e);
    | exist _ (Ok ([], _)) _ => ([], None);
    | exist _ (Ok (b :: chunk, f')) eq =>
        ((b :: chunk) ++ fst (delivered size f'), snd (delivered size f')) }.
Proof.
  all: unfold read in eq;
    destruct (h_fault f) as [[k e]|];
    [destruct (Nat.ltb k size); [discriminate|]|];
    injection eq as eq1 eq2; subst f'; simpl;
    rewrite <- (firstn_skipn size (h_rest f)) at 2;
    rewrite length_app, eq1; simpl; lia.
Qed.

(** What a decompressor hands over when it is fed the given chunks one
    after the other: the decoded bytes and the exception, if one was
    raised. *)
Fixpoint bz2_feed (decompressor : BZ2Decompressor) (chunks : list bytes)
    : bytes * option str :=
  match chunks with
  | [] => ([], None)
  | chunk :: chunks' =>
      match bz2_decompress decompressor chunk with
      | Raised e => ([], Some e)
      | Ok (data, decompressor') =>
          (data ++ fst (bz2_feed decompressor' chunks'),
           snd (bz2_feed decompressor' chunks'))
      end
  end.

(** The decoded bytes that reach the buffer of SearchInBz2 when the file
    object is read with [read(size)] until [b""] or an exception and every
    chunk is passed to the decompressor. *)
Equations? bz2_delivered (size : nat) (decompressor : BZ2Decompressor)
    (f : handle) : bytes * option str
  by wf (length (h_rest f)) lt :=
  bz2_delivered size decompressor f with inspect (read size f) := {
    | exist _ (Raised e) _ => ([], Some e);
    | exist _ (Ok ([], _)) _ => ([], None);
    | exist _ (Ok (b :: chunk, f')) eq
        with bz2_decompress decompressor (b :: chunk) := {
        | Raised e => ([], Some e);
        | Ok (data, decompressor') =>
            (data ++ fst (bz2_delivered size decompressor' f'),
             snd (bz2_delivered size decompressor' f')) } }.
Proof.
  all: unfold read in eq;
    destruct (h_fault f) as [[k e]|];
    [destruct (Nat.ltb k size); [discriminate|]|];
    injection eq as eq1 eq2; subst f'; simpl;
    rewrite <- (firstn_skipn size (h_rest f)) at 2;
    rewrite length_app, eq1; simpl; lia.
Qed.

(** States the loop of SearchInFlat and SearchInGz passes through, with
    the bytes appended to the buffer so far.  The loop is entered with an
    empty buffer, an empty result list and a first chunk. *)
Inductive read_reach (size : nat) (compiledPattern : Pattern) (filename : str)
    : bytes -> read_state -> Prop :=
| read_reach_enter (infile : handle) (chunk : bytes) :
    read_reach size compiledPattern filename []
      {| rs_infile := infile; rs_buffer := []; rs_chunk := chunk; rs_retVal := [] |}
| read_reach_pass (seen : bytes) (s s' : read_state) :
    read_reach size compiledPattern filename seen s ->
    read_step size compiledPattern filename s = Continue s' ->
    read_reach size compiledPattern filename (seen ++ rs_chunk s) s'.

(** The same for the loop of SearchInBz2; what is appended is the
    decompressor's output for the chunk. *)
Inductive bz2_reach (size : nat) (compiledPattern : Pattern) (filename : str)
    : bytes -> bz2_state -> Prop :=
| bz2_reach_enter (decompressor : BZ2Decompressor) (infile : handle) (chunk : bytes) :
    bz2_reach size compiledPattern filename []
      {| bs_decompressor := decompressor; bs_infile := infile; bs_buffer := [];
         bs_chunk := chunk; bs_retVal := [] |}
| bz2_reach_pass (seen data : bytes) (decompressor' : BZ2Decompressor)
    (s s' : bz2_state) :
    bz2_reach size compiledPattern filename seen s ->
    bz2_decompress (bs_decompressor s) (bs_chunk s) = Ok (data, decompressor') ->
    bz2_step size compiledPattern filename s = Continue s' ->
    bz2_reach size compiledPattern filename (seen ++ data) s'.

End Streams.

(** The text of a [str] before its first colon. *)
Fixpoint before_colon (s : str) : str :=
  match s with
  | EmptyString => EmptyString
  | String c s' => if Ascii.eqb c ":" then EmptyString else String c (before_colon s')
  end.

Fixpoint has_colon (s : str) : bool :=
  match s with
  | EmptyString => false
  | String c s' => Ascii.eqb c ":" || has_colon s'
  end.

(** The list a call returned; nothing if it raised. *)
Definition returned (call : io (list str)) : list str :=
  match snd call with
  | Ok matches => matches
  | Raised _ => []
  end.

(** What one file's result list adds to the output. *)
Definition aggregate (countOnly : bool) (matches : list str) : list str :=
  match matches with
  | [] => []
  | _ :: _ => if countOnly then [count_record matches] else matches
  end.

(** Position of a file's encoding in the order of the passes. *)
Definition encoding_rank (file : str) : nat :=
  if String.eqb (DetectFileType file) "bz" then 0
  else if String.eqb (DetectFileType file) "gz" then 1
  else 2.

Definition has_rank (r : nat) (file : str) : bool :=
  Nat.eqb (encoding_rank file) r.

(** The files in the order in which their results enter the output. *)
Definition pass_order (allFiles : list str) : list str :=
  filter (has_rank 0) allFiles ++ filter (has_rank 1) allFiles
  ++ filter (has_rank 2) allFiles.

Section Contributions.
Context {lib : PyLib}.

(** The searcher the orchestrator runs on a file. *)
Definition searcher_of (fs : filesystem) (file : str) : search_func :=
  match encoding_rank file with
  | 0 => SearchInBz2 CHUNK_SIZE fs
  | 1 => SearchInGz CHUNK_SIZE fs
  | _ => SearchInFlat CHUNK_SIZE fs
  end.

(** What a file adds to the final output. *)
Definition contribution (fs : filesystem) (pattern : str)
    (ignoreCase countOnly : bool) (file : str) : list str :=
  aggregate countOnly (returned (searcher_of fs file file pattern ignoreCase)).

End Contributions.

(** ** A sample file system

    A small log in plain, gzip and bzip2 form, the same log behind a path
    with a colon, a file without the word searched, a file that cannot be
    opened, a file with a damaged sector and two files that are not what
    their suffix says, used to run the program. *)
Module Sample.

Definition lines : list bytes :=
  map list_byte_of_string ["alpha error"; "beta"; " an error here "].

Definition tail : bytes := list_byte_of_string "last error".

Definition content : bytes := unlines lines ++ tail.

Definition locked : node :=
  File {| r_content := content;
          r_open_error := Some "[Errno 13] Permission denied: 'locked.txt'";
          r_read_fault := None |}.

Definition damaged : node :=
  File {| r_content := content;
          r_open_error := None;
          r_read_fault := Some (14, "[Errno 5] Input/output error") |}.

Definition fs : filesystem :=
  Stored.disk
    [("log.txt", Stored.plain_file content);
     ("log.txt.gz", Stored.plain_file (Stored.gzip_compress content));
     ("log.txt.bz2", Stored.plain_file (Stored.bz2_compress content));
     ("a:b.txt", Stored.plain_file content);
     ("quiet.txt", Stored.plain_file (unlines [list_byte_of_string "nothing"]));
     ("locked.txt", locked);
     ("damaged.txt", damaged);
     ("broken.gz", Stored.plain_file content);
     ("broken.bz2", Stored.plain_file (list_byte_of_string "BZ" ++ content))].

(** The pattern [error], compiled without flags. *)
Definition error_pattern : Stored.literal :=
  {| Stored.lit_text := list_byte_of_string "error";
     Stored.lit_ignore_case := false |}.

End Sample.

(** ** Single-encoding entry points *)


Section EntryPoints.
Context {lib : PyLib}.




End EntryPoints.

(** ** Further notions used in the statements *)







Section PoolOutput.
Context {lib : PyLib}.




End PoolOutput.


(** A list is an initial part of another. *)
Definition prefix_of {A : Type} (l1 l2 : list A) : Prop :=
  exists rest, l2 = l1 ++ rest.

(** * Properties *)

(** ** The model at work *)

Example bytes_split_examples :
  bytes_split nl [] = [[]]
  /\ bytes_split nl (list_byte_of_string "ab" ++ [nl] ++ list_byte_of_string "c")
     = [list_byte_of_string "ab"; list_byte_of_string "c"]
  /\ bytes_split nl (list_byte_of_string "ab" ++ [nl])
     = [list_byte_of_string "ab"; []]
  /\ bytes_split nl [nl; nl] = [[]; []; []].
Proof. repeat split. Qed.

Example str_examples :
  str_split ":" "a:b:c" = ["a"; "b"; "c"]
  /\ str_split ":" "" = [""]
  /\ endswith "x.tar.gz" ".gz" = true
  /\ endswith "gz" ".gz" = false
  /\ str_of_nat 0 = "0"
  /\ str_of_nat 120 = "120"
  /\ join_nl ["a"; "b"] = String "a" (String "010" "b").
Proof. repeat split. Qed.

Example DetectFileType_examples :
  DetectFileType "logs/a.bz2" = "bz"
  /\ DetectFileType "a.tar.gz" = "gz"
  /\ DetectFileType "a.bz2.txt" = "txt"
  /\ DetectFileType "noext" = "txt".
Proof. repeat split. Qed.

(** A run in line mode over the sample files, named in an order that
    differs from the order of the passes, with one path that does not
    exist. *)
Example Main_line_mode :
  Main (lib := Stored.lib) Sample.fs
    {| arg_pattern := Some "alpha";
       arg_files := ["log.txt"; "nowhere"; "broken.gz"; "log.txt.bz2"];
       arg_ignore_case := false; arg_recursive := false; arg_count := false;
       arg_output := None; arg_workers := 3; arg_help := false |}
  = (["[WARNING] Skipping invalid path: nowhere";
      join_nl ["log.txt.bz2:alpha error";
               "[ERROR] Could not read broken.gz: Not a gzipped file";
               "log.txt:alpha error"]],
     Ok None).
Proof. vm_compute. reflexivity. Qed.

(** The same run in count mode, written to a file. *)
Example Main_count_mode :
  Main (lib := Stored.lib) Sample.fs
    {| arg_pattern := Some "error";
       arg_files := ["log.txt"; "quiet.txt"; "a:b.txt"; "broken.gz"; "log.txt.bz2"];
       arg_ignore_case := false; arg_recursive := false; arg_count := true;
       arg_output := Some "out.txt"; arg_workers := 3; arg_help := false |}
  = ([],
     Ok (Some ("out.txt",
               join_nl ["log.txt.bz2:2";
                        "[ERROR] Could not read broken.gz:1";
                        "log.txt:2";
                        "a:2"] ^ String "010" ""))).
Proof. vm_compute. reflexivity. Qed.

(** Without a pattern the usage text is printed and nothing is searched. *)
Example Main_usage :
  Main (lib := Stored.lib) Sample.fs
    {| arg_pattern := None; arg_files := ["log.txt"];
       arg_ignore_case := false; arg_recursive := false; arg_count := false;
       arg_output := None; arg_workers := 3; arg_help := false |}
  = (fst DisplayHelp, Ok None).
Proof. vm_compute. reflexivity. Qed.

(** ** Splitting on newline *)

Lemma bytes_split_nonempty (sep : byte) (s : bytes) : bytes_split sep s <> [].
Proof.
  destruct s as [|c s]; simpl; [discriminate|].
  destruct (Byte.eqb c sep); [discriminate|].
  destruct (bytes_split sep s); discriminate.
Qed.

Lemma byte_eqb_nl (c : byte) : Byte.eqb c nl = true <-> c = nl.
Proof. split; [apply Byte.byte_dec_bl | apply Byte.byte_dec_lb]. Qed.

Lemma no_newline_nil : no_newline [].
Proof. intros []. Qed.

Lemma no_newline_cons (c : byte) (s : bytes) :
  no_newline (c :: s) <-> Byte.eqb c nl = false /\ no_newline s.
Proof.
  unfold no_newline. simpl. split.
  - intros H. split.
    + destruct (Byte.eqb c nl) eqn:E; [|reflexivity].
      apply byte_eqb_nl in E. subst. exfalso. apply H. now left.
    + intros Hin. apply H. now right.
  - intros [E H] [Hc|Hin]; [|now apply H].
    subst c. assert (Byte.eqb nl nl = true) by (now apply byte_eqb_nl).
    congruence.
Qed.

Lemma no_newline_app (a b : bytes) :
  no_newline (a ++ b) <-> no_newline a /\ no_newline b.
Proof.
  unfold no_newline. rewrite in_app_iff. tauto.
Qed.

Lemma bytes_split_no_newline (s : bytes) :
  no_newline s -> bytes_split nl s = [s].
Proof.
  induction s as [|c s IH]; [reflexivity|].
  intros H. apply no_newline_cons in H as [E H]. simpl.
  now rewrite E, (IH H).
Qed.

Lemma bytes_split_line (line rest : bytes) :
  no_newline line ->
  bytes_split nl (line ++ nl :: rest) = line :: bytes_split nl rest.
Proof.
  induction line as [|c line IH]; intros H.
  - reflexivity.
  - apply no_newline_cons in H as [E H]. simpl.
    now rewrite E, (IH H).
Qed.

Lemma bytes_split_pieces (s : bytes) : Forall no_newline (bytes_split nl s).
Proof.
  induction s as [|c s IH]; simpl.
  - constructor; [apply no_newline_nil | constructor].
  - destruct (Byte.eqb c nl) eqn:E.
    + constructor; [apply no_newline_nil | exact IH].
    + destruct (bytes_split nl s) as [|piece pieces].
      * constructor; [|constructor]. apply no_newline_cons. split; [exact E|apply no_newline_nil].
      * inversion IH; subst. constructor; [|assumption].
        apply no_newline_cons. now split.
Qed.

Lemma fragment_no_newline (data : bytes) : no_newline (fragment data).
Proof.
  unfold fragment.
  pose proof (bytes_split_pieces data) as H.
  pose proof (bytes_split_nonempty nl data) as Hne.
  rewrite Forall_forall in H. apply H.
  destruct (bytes_split nl data) as [|x l]; [congruence|].
  apply (@exists_last _ (x :: l)) in Hne as [l' [a Hl]].
  rewrite Hl, last_last. apply in_or_app. right. now left.
Qed.

Lemma complete_lines_no_newline (data : bytes) :
  Forall no_newline (complete_lines data).
Proof.
  unfold complete_lines.
  pose proof (bytes_split_pieces data) as H.
  pose proof (bytes_split_nonempty nl data) as Hne.
  destruct (exists_last Hne) as [l' [a Hl]].
  rewrite Hl in *. rewrite removelast_last.
  apply Forall_app in H. tauto.
Qed.

Lemma bytes_split_snoc (data : bytes) :
  bytes_split nl data = complete_lines data ++ [fragment data].
Proof.
  unfold complete_lines, fragment.
  apply app_removelast_last, bytes_split_nonempty.
Qed.

(** Splitting a concatenation: the lines closed inside the first part stay,
    and its open end is joined to the second part. *)
Lemma bytes_split_app (a b : bytes) :
  bytes_split nl (a ++ b) =
  complete_lines a ++ bytes_split nl (fragment a ++ b).
Proof.
  unfold complete_lines, fragment.
  induction a as [|c a IH]; [reflexivity|].
  simpl bytes_split at 1 2 3. simpl app at 1.
  simpl bytes_split at 1.
  destruct (Byte.eqb c nl) eqn:E.
  - rewrite IH.
    pose proof (bytes_split_nonempty nl a) as Hne.
    destruct (bytes_split nl a) as [|x l] eqn:Ea; [congruence|].
    reflexivity.
  - rewrite IH.
    pose proof (bytes_split_nonempty nl a) as Hne.
    destruct (bytes_split nl a) as [|x l] eqn:Ea; [congruence|].
    destruct l as [|y l].
    + simpl. rewrite E.
      pose proof (bytes_split_nonempty nl (x ++ b)) as Hne'.
      destruct (bytes_split nl (x ++ b)); [congruence|reflexivity].
    + reflexivity.
Qed.

Lemma removelast_app_nonempty {A : Type} (l l' : list A) :
  l' <> [] -> removelast (l ++ l') = l ++ removelast l'.
Proof. intros H. now apply removelast_app. Qed.

Lemma last_app_nonempty {A : Type} (l l' : list A) (d : A) :
  l' <> [] -> last (l ++ l') d = last l' d.
Proof.
  intros H. induction l as [|x l IH]; [reflexivity|].
  simpl. destruct (l ++ l') eqn:E; [|exact IH].
  apply app_eq_nil in E as [_ E]. congruence.
Qed.

Lemma complete_lines_app (a b : bytes) :
  complete_lines (a ++ b) = complete_lines a ++ complete_lines (fragment a ++ b).
Proof.
  unfold complete_lines at 1. rewrite bytes_split_app.
  apply removelast_app_nonempty, bytes_split_nonempty.
Qed.

Lemma fragment_app (a b : bytes) :
  fragment (a ++ b) = fragment (fragment a ++ b).
Proof.
  unfold fragment at 1. rewrite bytes_split_app.
  apply last_app_nonempty, bytes_split_nonempty.
Qed.

Lemma last_nonempty_default {A : Type} (l : list A) (d d' : A) :
  l <> [] -> last l d = last l d'.
Proof.
  induction l as [|x l IH]; [congruence|].
  intros _. destruct l as [|y l]; [reflexivity|].
  simpl in *. apply IH. discriminate.
Qed.

Lemma pop_bytes_split (s : bytes) :
  pop (bytes_split nl s) = Some (complete_lines s, fragment s).
Proof.
  unfold pop, complete_lines, fragment.
  pose proof (bytes_split_nonempty nl s) as Hne.
  destruct (bytes_split nl s) as [|x l]; [congruence|].
  now rewrite (last_nonempty_default (x :: l) x []).
Qed.

Lemma complete_lines_fragment_small (s : bytes) :
  no_newline s -> complete_lines s = [] /\ fragment s = s.
Proof.
  intros H. unfold complete_lines, fragment.
  now rewrite (bytes_split_no_newline s H).
Qed.

Lemma complete_lines_line (line rest : bytes) :
  no_newline line ->
  complete_lines (line ++ nl :: rest) = line :: complete_lines rest.
Proof.
  intros H. unfold complete_lines. rewrite (bytes_split_line line rest H).
  pose proof (bytes_split_nonempty nl rest).
  simpl. destruct (bytes_split nl rest); [congruence|reflexivity].
Qed.

Lemma fragment_line (line rest : bytes) :
  no_newline line -> fragment (line ++ nl :: rest) = fragment rest.
Proof.
  intros H. unfold fragment. rewrite (bytes_split_line line rest H).
  pose proof (bytes_split_nonempty nl rest).
  simpl. destruct (bytes_split nl rest); [congruence|reflexivity].
Qed.

(** A content made of closed lines and an open end is split back into
    exactly these. *)
Lemma complete_lines_unlines (lines : list bytes) (tail : bytes) :
  Forall no_newline lines -> no_newline tail ->
  complete_lines (unlines lines ++ tail) = lines
  /\ fragment (unlines lines ++ tail) = tail.
Proof.
  intros Hl Ht. induction Hl as [|line lines Hline Hl IH].
  - simpl. now apply complete_lines_fragment_small.
  - unfold unlines. simpl. fold (unlines lines).
    rewrite <- !app_assoc. simpl.
    rewrite (complete_lines_line _ _ Hline), (fragment_line _ _ Hline).
    destruct IH as [-> ->]. now split.
Qed.

Lemma complete_lines_cons (c : byte) (data : bytes) :
  Byte.eqb c nl = false ->
  complete_lines (c :: data) =
    match complete_lines data with
    | [] => []
    | line :: lines => (c :: line) :: lines
    end
  /\ fragment (c :: data) =
    match complete_lines data with
    | [] => c :: fragment data
    | _ :: _ => fragment data
    end.
Proof.
  intros E. unfold complete_lines, fragment. simpl. rewrite E.
  pose proof (bytes_split_nonempty nl data) as Hne.
  destruct (bytes_split nl data) as [|piece pieces]; [congruence|].
  destruct pieces as [|piece' pieces]; simpl; split; reflexivity.
Qed.

(** Every content is its closed lines followed by its open end. *)
Lemma unlines_complete_lines (data : bytes) :
  unlines (complete_lines data) ++ fragment data = data.
Proof.
  induction data as [|c data IH]; [reflexivity|].
  destruct (Byte.eqb c nl) eqn:E.
  - apply byte_eqb_nl in E. subst c.
    pose proof (complete_lines_line [] data no_newline_nil) as Hc.
    pose proof (fragment_line [] data no_newline_nil) as Hf.
    simpl in Hc, Hf. rewrite Hc, Hf.
    unfold unlines in *. simpl. now rewrite IH.
  - destruct (complete_lines_cons c data E) as [-> ->].
    destruct (complete_lines data) as [|line lines].
    + simpl in *. now rewrite IH.
    + unfold unlines in *. simpl in *. now rewrite IH.
Qed.

(** The one-pass reading of the closed lines agrees with [split]. *)
Lemma terminated_from_complete (line data : bytes) :
  no_newline line ->
  terminated_from line data = complete_lines (line ++ data).
Proof.
  revert line. induction data as [|c data IH]; intros line Hline.
  - rewrite app_nil_r. simpl.
    now destruct (complete_lines_fragment_small line Hline) as [-> _].
  - simpl. destruct (Byte.eqb c nl) eqn:E.
    + apply byte_eqb_nl in E. subst c.
      rewrite (complete_lines_line line data Hline).
      f_equal. apply (IH [] no_newline_nil).
    + rewrite IH.
      * now rewrite <- app_assoc.
      * apply no_newline_app. split; [exact Hline|].
        apply no_newline_cons. split; [exact E|apply no_newline_nil].
Qed.

Lemma terminated_lines_complete (data : bytes) :
  terminated_lines data = complete_lines data.
Proof. apply (terminated_from_complete [] data no_newline_nil). Qed.

(** ** The loops *)

Ltac drop_call_equations :=
  try match goal with
      | Hcall : _ = _ |- _ =>
          match type of Hcall with
          | context [read_loop] => idtac
          | context [bz2_loop] => idtac
          | context [delivered] => idtac
          | context [bz2_delivered] => idtac
          | context [chunks] => idtac
          end;
          match goal with
          | |- context [Hcall] => fail 1
          | _ => idtac
          end
      end;
  repeat match goal with
         | Hsig : sigmaI _ _ _ = _ |- _ => clear Hsig
         end.

Lemma delivered_read (size : nat) (f : handle) :
  delivered size f =
  match read size f with
  | Raised e => ([], Some e)
  | Ok ([], _) => ([], None)
  | Ok (b :: chunk, f') =>
      ((b :: chunk) ++ fst (delivered size f'), snd (delivered size f'))
  end.
Proof.
  funelim (delivered size f); clear Heqcall; drop_call_equations;
    match goal with
    | Hr : read _ _ = _ |- _ => now rewrite Hr
    end.
Qed.

Lemma chunks_firstn (size : nat) (data : bytes) :
  chunks size data =
  match firstn size data with
  | [] => []
  | b :: chunk => (b :: chunk) :: chunks size (skipn size data)
  end.
Proof.
  funelim (chunks size data); clear Heqcall; drop_call_equations;
    match goal with
    | Hr : firstn _ _ = _ |- _ => now rewrite Hr
    end.
Qed.



Section LoopFacts.
Context {lib : PyLib}.
Variables (size : nat) (compiledPattern : Pattern) (filename : str).

Lemma scan_lines_records (lines : list bytes) (retVal : list str) :
  scan_lines compiledPattern filename lines retVal =
  retVal ++ matching_records compiledPattern filename lines.
Proof.
  unfold matching_records.
  revert retVal. induction lines as [|line lines IH]; intros retVal; simpl.
  - now rewrite app_nil_r.
  - rewrite IH. destruct (re_search compiledPattern line); simpl.
    + now rewrite <- app_assoc.
    + reflexivity.
Qed.

Lemma matching_records_app (l1 l2 : list bytes) :
  matching_records compiledPattern filename (l1 ++ l2) =
  matching_records compiledPattern filename l1
    ++ matching_records compiledPattern filename l2.
Proof.
  unfold matching_records. now rewrite filter_app, map_app.
Qed.

(** What the loop of SearchInFlat and SearchInGz returns from any state:
    the records so far, then those of the lines closed in the buffer
    joined with everything still delivered, then the error record if the
    stream fails.  The open end is left out. *)
Lemma read_loop_step (s : read_state) :
  read_loop size compiledPattern filename s =
  match read_step size compiledPattern filename s with
  | Return retVal => retVal
  | Continue s' => read_loop size compiledPattern filename s'
  end.
Proof.
  funelim (read_loop size compiledPattern filename s); clear Heqcall;
    drop_call_equations;
    match goal with
    | Hs : read_step _ _ _ _ = _ |- _ => now rewrite Hs
    end.
Qed.

Lemma bz2_loop_step (s : bz2_state) :
  bz2_loop size compiledPattern filename s =
  match bz2_step size compiledPattern filename s with
  | Return retVal => retVal
  | Continue s' => bz2_loop size compiledPattern filename s'
  end.
Proof.
  funelim (bz2_loop size compiledPattern filename s); clear Heqcall;
    drop_call_equations;
    match goal with
    | Hs : bz2_step _ _ _ _ = _ |- _ => now rewrite Hs
    end.
Qed.

Lemma bz2_delivered_read (decompressor : BZ2Decompressor) (f : handle) :
  bz2_delivered size decompressor f =
  match read size f with
  | Raised e => ([], Some e)
  | Ok ([], _) => ([], None)
  | Ok (b :: chunk, f') =>
      match bz2_decompress decompressor (b :: chunk) with
      | Raised e => ([], Some e)
      | Ok (data, decompressor') =>
          (data ++ fst (bz2_delivered size decompressor' f'),
           snd (bz2_delivered size decompressor' f'))
      end
  end.
Proof.
  funelim (bz2_delivered size decompressor f); clear Heqcall;
    drop_call_equations;
    match goal with
    | Hr : read _ _ = _ |- _ => rewrite Hr
    end;
    try reflexivity;
    match goal with
    | Hd : bz2_decompress _ _ = _ |- _ => now rewrite Hd
    end.
Qed.

Lemma read_loop_delivered (s : read_state) :
  read_loop size compiledPattern filename s =
  match rs_chunk s with
  | [] => rs_retVal s
  | _ :: _ =>
      rs_retVal s
      ++ matching_records compiledPattern filename
           (complete_lines
              (rs_buffer s ++ rs_chunk s ++ fst (delivered size (rs_infile s))))
      ++ failure_records filename (snd (delivered size (rs_infile s)))
  end.
Proof.
  funelim (read_loop size compiledPattern filename s); clear Heqcall;
    drop_call_equations;
    match goal with
    | Hs : read_step _ _ _ _ = _ |- _ => rename Hs into Hstep
    end;
    unfold read_step in Hstep;
    destruct (rs_chunk s) as [|b chunk] eqn:Hchunk;
    try discriminate; try (now injection Hstep);
    rewrite pop_bytes_split in Hstep;
    rewrite (delivered_read size (rs_infile s));
    destruct (read size (rs_infile s)) as [[chunk' infile']|e'];
    try discriminate; injection Hstep as <-.
  - (* one more pass *)
    match goal with
    | IH : read_loop _ _ _ _ = _ |- _ => rewrite IH
    end.
    cbn [rs_infile rs_buffer rs_chunk rs_retVal].
    rewrite scan_lines_records.
    destruct chunk' as [|b' chunk']; cbn [fst snd failure_records].
    + now rewrite !app_nil_r.
    + rewrite (app_assoc (rs_buffer s) (b :: chunk)).
      rewrite (complete_lines_app (rs_buffer s ++ b :: chunk)).
      now rewrite matching_records_app, <- !app_assoc.
  - (* the read raises *)
    cbn [fst snd failure_records].
    now rewrite scan_lines_records, <- app_assoc, !app_nil_r.
Qed.

(** The same for the loop of SearchInBz2, where the stream is what the
    decompressor makes of the chunks. *)
Lemma bz2_loop_delivered (s : bz2_state) :
  bz2_loop size compiledPattern filename s =
  match bs_chunk s with
  | [] => bs_retVal s
  | _ :: _ =>
      match bz2_decompress (bs_decompressor s) (bs_chunk s) with
      | Raised e => bs_retVal s ++ [error_record filename e]
      | Ok (data, decompressor') =>
          bs_retVal s
          ++ matching_records compiledPattern filename
               (complete_lines
                  (bs_buffer s ++ data
                   ++ fst (bz2_delivered size decompressor' (bs_infile s))))
          ++ failure_records filename
               (snd (bz2_delivered size decompressor' (bs_infile s)))
      end
  end.
Proof.
  funelim (bz2_loop size compiledPattern filename s); clear Heqcall;
    drop_call_equations;
    match goal with
    | Hs : bz2_step _ _ _ _ = _ |- _ => rename Hs into Hstep
    end;
    unfold bz2_step in Hstep;
    destruct (bs_chunk s) as [|b chunk] eqn:Hchunk;
    try discriminate; try (now injection Hstep);
    destruct (bz2_decompress (bs_decompressor s) (b :: chunk))
      as [[data decompressor']|e0];
    try discriminate; try (now injection Hstep);
    rewrite pop_bytes_split in Hstep;
    rewrite (bz2_delivered_read decompressor' (bs_infile s));
    destruct (read size (bs_infile s)) as [[chunk' infile']|e'];
    try discriminate; injection Hstep as <-.
  - (* one more pass *)
    match goal with
    | IH : bz2_loop _ _ _ _ = _ |- _ => rewrite IH
    end.
    cbn [bs_decompressor bs_infile bs_buffer bs_chunk bs_retVal].
    rewrite scan_lines_records.
    destruct chunk' as [|b' chunk']; cbn [fst snd failure_records].
    + now rewrite !app_nil_r.
    + destruct (bz2_decompress decompressor' (b' :: chunk'))
        as [[data' decompressor'']|e1]; cbn [fst snd failure_records].
      * rewrite (app_assoc (bs_buffer s) data).
        rewrite (complete_lines_app (bs_buffer s ++ data)).
        now rewrite matching_records_app, <- !app_assoc.
      * now rewrite !app_nil_r, <- app_assoc.
  - (* the read raises *)
    cbn [fst snd failure_records].
    now rewrite scan_lines_records, <- app_assoc, !app_nil_r.
Qed.

End LoopFacts.

(** ** What the file objects deliver *)

Lemma firstn_nil_inv {A : Type} (n : nat) (l : list A) :
  0 < n -> firstn n l = [] -> l = [].
Proof.
  intros Hn H. destruct n; [lia|]. destruct l; [reflexivity|discriminate].
Qed.

(** A sound file object read in chunks of a positive size delivers the
    whole content. *)
Lemma delivered_sound (size : nat) (f : handle) :
  0 < size -> h_fault f = None -> delivered size f = (h_rest f, None).
Proof.
  intros Hsize.
  remember (length (h_rest f)) as n eqn:Hn. revert f Hn.
  induction n as [n IH] using lt_wf_ind. intros f Hn Hf.
  rewrite delivered_read. unfold read. rewrite Hf.
  destruct (firstn size (h_rest f)) as [|b chunk] eqn:Hfirst.
  - now rewrite (firstn_nil_inv size _ Hsize Hfirst).
  - rewrite (IH (length (skipn size (h_rest f)))); try reflexivity.
    + cbn [fst snd h_rest]. rewrite <- Hfirst. now rewrite firstn_skipn.
    + subst n. rewrite <- (firstn_skipn size (h_rest f)) at 2.
      rewrite length_app, Hfirst. simpl. lia.
Qed.

(** With a fault at offset [k] inside the content, the chunks lying
    wholly before the fault are delivered, then the exception. *)
Lemma delivered_fault (size : nat) (f : handle) (k : nat) (e : str) :
  0 < size -> h_fault f = Some (k, e) -> k <= length (h_rest f) ->
  delivered size f = (firstn (k / size * size) (h_rest f), Some e).
Proof.
  intros Hsize.
  remember (length (h_rest f)) as n eqn:Hn. revert f k Hn.
  induction n as [n IH] using lt_wf_ind. intros f k Hn Hf Hk.
  rewrite delivered_read. unfold read. rewrite Hf.
  destruct (Nat.ltb k size) eqn:Hlt.
  - apply Nat.ltb_lt in Hlt. now rewrite (Nat.div_small k size Hlt).
  - apply Nat.ltb_ge in Hlt.
    destruct (firstn size (h_rest f)) as [|b chunk] eqn:Hfirst.
    + apply (firstn_nil_inv size _ Hsize) in Hfirst.
      rewrite Hfirst in Hn. simpl in Hn. lia.
    + assert (Hlen : length (h_rest f) = size + length (skipn size (h_rest f))).
      { rewrite length_skipn. lia. }
      rewrite (IH (length (skipn size (h_rest f))) ltac:(lia)
                 {| h_rest := skipn size (h_rest f);
                    h_fault := Some (k - size, e) |}
                 (k - size) eq_refl eq_refl ltac:(lia)).
      cbn [fst snd h_rest]. f_equal. rewrite <- Hfirst.
      assert (Hdiv : k / size * size = size + (k - size) / size * size).
      { replace k with ((k - size) + 1 * size) at 1 by lia.
        rewrite Nat.div_add by lia. lia. }
      rewrite Hdiv.
      rewrite <- (firstn_skipn size (h_rest f)) at 3.
      rewrite firstn_app, firstn_firstn, length_firstn.
      replace (Nat.min size (length (h_rest f))) with size by lia.
      replace (Nat.min (size + (k - size) / size * size) size) with size by lia.
      replace (size + (k - size) / size * size - size)
        with ((k - size) / size * size) by lia.
      reflexivity.
Qed.

Lemma chunks_concat (size : nat) (data : bytes) :
  0 < size -> concat (chunks size data) = data.
Proof.
  intros Hsize.
  remember (length data) as n eqn:Hn. revert data Hn.
  induction n as [n IH] using lt_wf_ind. intros data Hn.
  rewrite chunks_firstn.
  destruct (firstn size data) as [|b chunk] eqn:Hfirst.
  - now rewrite (firstn_nil_inv size _ Hsize Hfirst).
  - simpl. rewrite (IH (length (skipn size data))); try reflexivity.
    + change (b :: chunk ++ skipn size data) with ((b :: chunk) ++ skipn size data).
      rewrite <- Hfirst. apply firstn_skipn.
    + subst n. rewrite <- (firstn_skipn size data) at 2.
      rewrite length_app, Hfirst. simpl. lia.
Qed.

Lemma chunks_nonempty (size : nat) (data : bytes) :
  Forall (fun chunk => chunk <> []) (chunks size data).
Proof.
  remember (length data) as n eqn:Hn. revert data Hn.
  induction n as [n IH] using lt_wf_ind. intros data Hn.
  rewrite chunks_firstn.
  destruct (firstn size data) as [|b chunk] eqn:Hfirst; constructor.
  - discriminate.
  - apply (IH (length (skipn size data))); [|reflexivity].
    subst n. rewrite <- (firstn_skipn size data) at 2.
    rewrite length_app, Hfirst. simpl. lia.
Qed.

(** Reading a sound file object chunk by chunk into a decompressor is
    feeding the decompressor the chunks of the content. *)
Lemma bz2_delivered_feed {lib : PyLib} (size : nat)
    (decompressor : BZ2Decompressor) (f : handle) :
  h_fault f = None ->
  bz2_delivered size decompressor f =
  bz2_feed decompressor (chunks size (h_rest f)).
Proof.
  remember (length (h_rest f)) as n eqn:Hn. revert f decompressor Hn.
  induction n as [n IH] using lt_wf_ind. intros f decompressor Hn Hf.
  rewrite bz2_delivered_read, chunks_firstn. unfold read. rewrite Hf.
  destruct (firstn size (h_rest f)) as [|b chunk] eqn:Hfirst; [reflexivity|].
  simpl.
  destruct (bz2_decompress decompressor (b :: chunk))
    as [[data decompressor']|e]; [|reflexivity].
  rewrite (IH (length (skipn size (h_rest f)))); try reflexivity.
  subst n. rewrite <- (firstn_skipn size (h_rest f)) at 2.
  rewrite length_app, Hfirst. simpl. lia.
Qed.

(** ** The searchers as functions of the stream *)

Section SearcherFacts.
Context {lib : PyLib}.
Variables (size : nat) (fs : filesystem) (filename pattern : str)
  (ignore_case : bool).

Lemma open_rb_isfile (infile : handle) :
  open_rb fs filename = Ok infile -> isfile fs filename = true.
Proof.
  unfold open_rb, isfile.
  destruct (lookup fs filename) as [[r|names]|]; [reflexivity|discriminate..].
Qed.

(** A path that is not a regular file: the diagnostic is printed and the
    empty list returned, before the pattern is even compiled. *)
Lemma searchers_missing :
  isfile fs filename = false ->
  SearchInFlat size fs filename pattern ignore_case
    = (["[ERROR] File not found: " ^ filename], Ok [])
  /\ SearchInBz2 size fs filename pattern ignore_case
    = (["[ERROR] File not found: " ^ filename], Ok [])
  /\ SearchInGz size fs filename pattern ignore_case
    = (["[ERROR] File not found: " ^ filename], Ok []).
Proof.
  intros H. unfold SearchInFlat, SearchInBz2, SearchInGz. now rewrite H.
Qed.

(** A pattern that does not compile: the exception escapes the searcher. *)
Lemma searchers_bad_pattern (e : str) :
  isfile fs filename = true ->
  re_compile pattern ignore_case = Raised e ->
  SearchInFlat size fs filename pattern ignore_case = ([], Raised e)
  /\ SearchInBz2 size fs filename pattern ignore_case = ([], Raised e)
  /\ SearchInGz size fs filename pattern ignore_case = ([], Raised e).
Proof.
  intros H Hc. unfold SearchInFlat, SearchInBz2, SearchInGz.
  now rewrite H, Hc.
Qed.

(** A regular file that cannot be opened. *)
Lemma searchers_unopenable (compiledPattern : Pattern) (e : str) :
  isfile fs filename = true ->
  re_compile pattern ignore_case = Ok compiledPattern ->
  open_rb fs filename = Raised e ->
  SearchInFlat size fs filename pattern ignore_case
    = ([], Ok [error_record filename e])
  /\ SearchInBz2 size fs filename pattern ignore_case
    = ([], Ok [error_record filename e])
  /\ SearchInGz size fs filename pattern ignore_case
    = ([], Ok [error_record filename e]).
Proof.
  intros H Hc Ho. unfold SearchInFlat, SearchInBz2, SearchInGz.
  now rewrite H, Hc, Ho.
Qed.

Lemma SearchInFlat_stream (compiledPattern : Pattern) (infile : handle) :
  re_compile pattern ignore_case = Ok compiledPattern ->
  open_rb fs filename = Ok infile ->
  SearchInFlat size fs filename pattern ignore_case =
  ([], Ok (stream_records compiledPattern filename (delivered size infile))).
Proof.
  intros Hc Ho. unfold SearchInFlat, stream_records.
  rewrite (open_rb_isfile infile Ho), Hc, Ho. cbn [negb].
  rewrite (delivered_read size infile).
  destruct (read size infile) as [[chunk infile']|e]; [|reflexivity].
  rewrite read_loop_delivered. cbn [rs_chunk rs_buffer rs_retVal rs_infile].
  destruct chunk as [|b chunk]; reflexivity.
Qed.

Lemma SearchInGz_stream (compiledPattern : Pattern) (infile : handle) :
  re_compile pattern ignore_case = Ok compiledPattern ->
  open_rb fs filename = Ok infile ->
  SearchInGz size fs filename pattern ignore_case =
  ([], Ok (stream_records compiledPattern filename
             (delivered size (GzipFile infile)))).
Proof.
  intros Hc Ho. unfold SearchInGz, stream_records.
  rewrite (open_rb_isfile infile Ho), Hc, Ho. cbn [negb].
  rewrite (delivered_read size (GzipFile infile)).
  destruct (read size (GzipFile infile)) as [[chunk gzfile']|e]; [|reflexivity].
  rewrite read_loop_delivered. cbn [rs_chunk rs_buffer rs_retVal rs_infile].
  destruct chunk as [|b chunk]; reflexivity.
Qed.

Lemma SearchInBz2_stream (compiledPattern : Pattern) (infile : handle) :
  re_compile pattern ignore_case = Ok compiledPattern ->
  open_rb fs filename = Ok infile ->
  SearchInBz2 size fs filename pattern ignore_case =
  ([], Ok (stream_records compiledPattern filename
             (bz2_delivered size bz2_new infile))).
Proof.
  intros Hc Ho. unfold SearchInBz2, stream_records.
  rewrite (open_rb_isfile infile Ho), Hc, Ho. cbn [negb].
  rewrite (bz2_delivered_read size bz2_new infile).
  destruct (read size infile) as [[chunk infile']|e]; [|reflexivity].
  rewrite bz2_loop_delivered.
  cbn [bs_chunk bs_buffer bs_retVal bs_infile bs_decompressor].
  destruct chunk as [|b chunk]; [reflexivity|].
  destruct (bz2_decompress bz2_new (b :: chunk)) as [[data decompressor']|e];
    reflexivity.
Qed.

End SearcherFacts.

Lemma stream_records_sound {lib : PyLib} (compiledPattern : Pattern)
    (filename : str) (content : bytes) :
  stream_records compiledPattern filename (content, None) =
  matching_records compiledPattern filename (complete_lines content).
Proof. unfold stream_records. simpl. apply app_nil_r. Qed.

(** ** Stream searcher: the claims *)

(** C1.  Every content is a sequence of newline-terminated lines followed
    by an unterminated fragment, which is empty exactly when the content is
    empty or ends with a newline.  For a file that opens, each of
    SearchInFlat, SearchInGz and SearchInBz2 returns exactly the records of
    the terminated lines the pattern is found in: every terminated line is
    evaluated and the trailing fragment never is, so it has no record even
    if it satisfies the pattern.  Each searcher is taken on its own: the
    content is what the file holds for SearchInFlat, what the file object
    of [gzip] holds for SearchInGz, and what the decompressor makes of the
    chunks read for SearchInBz2. *)
Theorem trailing_fragment_dropped {lib : PyLib} (size : nat) (fs : filesystem)
    (filename pattern : str) (ignore_case : bool) (compiledPattern : Pattern)
    (infile : handle) (lines : list bytes) (tail : bytes) :
  0 < size ->
  Forall no_newline lines -> no_newline tail ->
  re_compile pattern ignore_case = Ok compiledPattern ->
  open_rb fs filename = Ok infile ->
  (infile = {| h_rest := unlines lines ++ tail; h_fault := None |} ->
   SearchInFlat size fs filename pattern ignore_case
   = ([], Ok (matching_records compiledPattern filename lines)))
  /\ (GzipFile infile = {| h_rest := unlines lines ++ tail; h_fault := None |} ->
      SearchInGz size fs filename pattern ignore_case
      = ([], Ok (matching_records compiledPattern filename lines)))
  /\ (h_fault infile = None ->
      bz2_feed bz2_new (chunks size (h_rest infile))
      = (unlines lines ++ tail, None) ->
      SearchInBz2 size fs filename pattern ignore_case
      = ([], Ok (matching_records compiledPattern filename lines)))
  /\ (forall content : bytes,
        content = unlines (complete_lines content) ++ fragment content
        /\ Forall no_newline (complete_lines content)
        /\ no_newline (fragment content)).
Proof.
  intros Hsize Hlines Htail Hc Hopen.
  destruct (complete_lines_unlines lines tail Hlines Htail) as [Hcl _].
  split; [|split; [|split]].
  - intros ->.
    rewrite (SearchInFlat_stream size fs filename pattern ignore_case _ _ Hc Hopen).
    rewrite (delivered_sound size
               {| h_rest := unlines lines ++ tail; h_fault := None |}
               Hsize eq_refl).
    cbn [h_rest]. now rewrite stream_records_sound, Hcl.
  - intros Hgzfile.
    rewrite (SearchInGz_stream size fs filename pattern ignore_case _ _ Hc Hopen).
    rewrite Hgzfile.
    rewrite (delivered_sound size
               {| h_rest := unlines lines ++ tail; h_fault := None |}
               Hsize eq_refl).
    cbn [h_rest]. now rewrite stream_records_sound, Hcl.
  - intros Hsound Hfeed.
    rewrite (SearchInBz2_stream size fs filename pattern ignore_case _ _ Hc Hopen).
    rewrite (bz2_delivered_feed size bz2_new infile Hsound), Hfeed.
    now rewrite stream_records_sound, Hcl.
  - intros content. split; [|split].
    + symmetry. apply unlines_complete_lines.
    + apply complete_lines_no_newline.
    + apply fragment_no_newline.
Qed.

(** C2.  For every content, pattern and positive chunk size, SearchInFlat
    returns the records of the newline-terminated lines of the whole
    content in which the pattern is found, whatever the chunk size.  These
    lines are read off the content in one pass without chunks; the content
    is these lines, each followed by a newline, and a newline-free rest.
    The pattern is only ever applied to whole lines, none of which holds a
    newline, so a match cut by a chunk boundary is found and no match
    spans two lines. *)
Theorem chunked_search_is_linewise {lib : PyLib} (size : nat) (fs : filesystem)
    (filename pattern : str) (ignore_case : bool) (compiledPattern : Pattern)
    (content : bytes) :
  0 < size ->
  re_compile pattern ignore_case = Ok compiledPattern ->
  open_rb fs filename = Ok {| h_rest := content; h_fault := None |} ->
  SearchInFlat size fs filename pattern ignore_case
    = ([], Ok (matching_records compiledPattern filename (terminated_lines content)))
  /\ Forall no_newline (terminated_lines content)
  /\ (exists rest,
        no_newline rest /\ content = unlines (terminated_lines content) ++ rest).
Proof.
  intros Hsize Hc Ho. rewrite terminated_lines_complete. split; [|split].
  - rewrite (SearchInFlat_stream size fs filename pattern ignore_case _ _ Hc Ho).
    rewrite (delivered_sound size {| h_rest := content; h_fault := None |}
               Hsize eq_refl).
    cbn [h_rest]. now rewrite stream_records_sound.
  - apply complete_lines_no_newline.
  - exists (fragment content). split; [apply fragment_no_newline|].
    symmetry. apply unlines_complete_lines.
Qed.

Lemma snoc_fragment (seen buffer : bytes) :
  bytes_split nl seen = complete_lines seen ++ [buffer] -> buffer = fragment seen.
Proof.
  intros H. rewrite (bytes_split_snoc seen) in H.
  now apply app_inj_tail in H as [_ H].
Qed.

Lemma buffer_invariant_pass {lib : PyLib} (compiledPattern : Pattern)
    (filename : str) (seen buffer data : bytes) (retVal : list str) :
  bytes_split nl seen = complete_lines seen ++ [buffer] ->
  retVal = matching_records compiledPattern filename (complete_lines seen) ->
  no_newline (fragment (buffer ++ data))
  /\ bytes_split nl (seen ++ data) =
       complete_lines (seen ++ data) ++ [fragment (buffer ++ data)]
  /\ scan_lines compiledPattern filename (complete_lines (buffer ++ data)) retVal
     = matching_records compiledPattern filename (complete_lines (seen ++ data)).
Proof.
  intros Hsplit ->. apply snoc_fragment in Hsplit. subst buffer.
  repeat split.
  - apply fragment_no_newline.
  - rewrite <- fragment_app. apply bytes_split_snoc.
  - rewrite scan_lines_records, (complete_lines_app seen data).
    now rewrite matching_records_app.
Qed.

(** C8.  In every state the loop of a stream searcher passes through, the
    buffer holds no newline, the bytes appended so far split into their
    complete lines followed by the buffer, and the result list is what
    matching all these complete lines in order gives: after each chunk the
    complete lines have been extracted in order and the remainder is the new
    buffer. *)
Theorem chunk_buffer_invariant {lib : PyLib} (size : nat)
    (compiledPattern : Pattern) (filename : str) :
  (forall (seen : bytes) (s : read_state),
      read_reach size compiledPattern filename seen s ->
      no_newline (rs_buffer s)
      /\ bytes_split nl seen = complete_lines seen ++ [rs_buffer s]
      /\ rs_retVal s
         = matching_records compiledPattern filename (complete_lines seen))
  /\ (forall (seen : bytes) (s : bz2_state),
      bz2_reach size compiledPattern filename seen s ->
      no_newline (bs_buffer s)
      /\ bytes_split nl seen = complete_lines seen ++ [bs_buffer s]
      /\ bs_retVal s
         = matching_records compiledPattern filename (complete_lines seen)).
Proof.
  split; intros seen s Hreach.
  - induction Hreach as [infile chunk|seen s s' Hreach IH Hstep].
    + repeat split. apply no_newline_nil.
    + destruct IH as (_ & Hsplit & Hret).
      unfold read_step in Hstep.
      destruct (rs_chunk s) as [|b chunk]; [discriminate|].
      rewrite pop_bytes_split in Hstep.
      destruct (read size (rs_infile s)) as [[chunk' infile']|e];
        [|discriminate].
      injection Hstep as <-. cbn [rs_buffer rs_retVal].
      apply (buffer_invariant_pass _ _ _ _ _ _ Hsplit Hret).
  - induction Hreach
      as [decompressor infile chunk|seen data decompressor' s s' Hreach IH Hdec Hstep].
    + repeat split. apply no_newline_nil.
    + destruct IH as (_ & Hsplit & Hret).
      unfold bz2_step in Hstep.
      destruct (bs_chunk s) as [|b chunk]; [discriminate|].
      rewrite Hdec, pop_bytes_split in Hstep.
      destruct (read size (bs_infile s)) as [[chunk' infile']|e];
        [|discriminate].
      injection Hstep as <-. cbn [bs_buffer bs_retVal].
      apply (buffer_invariant_pass _ _ _ _ _ _ Hsplit Hret).
Qed.

(** ** Dispatcher and aggregation *)

Lemma executor_map_map (func : search_func) (files : list str)
    (pattern : str) (ignoreCase : bool) :
  executor_map func files (repeat pattern (length files))
    (repeat ignoreCase (length files))
  = map (fun file => func file pattern ignoreCase) files.
Proof.
  unfold executor_map.
  induction files as [|file files IH]; [reflexivity|].
  simpl. now rewrite IH.
Qed.

Lemma gather_step (countOnly : bool) (call : io (list str))
    (results : list (io (list str))) (retVal : list str) :
  gather countOnly (call :: results) retVal =
  match snd call with
  | Ok matches => gather countOnly results (retVal ++ aggregate countOnly matches)
  | Raised e => Raised e
  end.
Proof.
  destruct call as [out [matches|e]]; [|reflexivity]. simpl.
  destruct matches as [|first rest]; simpl.
  - now rewrite app_nil_r.
  - destruct countOnly; reflexivity.
Qed.

Lemma gather_app (countOnly : bool) (results1 results2 : list (io (list str)))
    (retVal : list str) :
  gather countOnly (results1 ++ results2) retVal =
  match gather countOnly results1 retVal with
  | Ok retVal' => gather countOnly results2 retVal'
  | Raised e => Raised e
  end.
Proof.
  revert retVal. induction results1 as [|call results1 IH]; intros retVal.
  - reflexivity.
  - rewrite <- app_comm_cons, !gather_step.
    destruct (snd call); [apply IH|reflexivity].
Qed.

Lemma returned_ok (call : io (list str)) (matches : list str) :
  snd call = Ok matches -> returned call = matches.
Proof. unfold returned. now intros ->. Qed.

(** When the loop over the results ends normally, each result has added
    its aggregate, in the order of the results. *)
Lemma gather_returned (countOnly : bool) (results : list (io (list str)))
    (retVal out : list str) :
  gather countOnly results retVal = Ok out ->
  out = retVal ++ flat_map (fun call => aggregate countOnly (returned call)) results.
Proof.
  revert retVal. induction results as [|call results IH]; intros retVal.
  - simpl. intros [= <-]. now rewrite app_nil_r.
  - rewrite gather_step.
    destruct (snd call) as [matches|e] eqn:Hcall; [|discriminate].
    intros H. apply IH in H. rewrite H. cbn [flat_map].
    rewrite (returned_ok call matches Hcall). now rewrite <- app_assoc.
Qed.

Lemma gather_all_returned (countOnly : bool) (results : list (io (list str)))
    (retVal : list str) :
  Forall (fun call => exists matches, snd call = Ok matches) results ->
  gather countOnly results retVal =
  Ok (retVal ++ flat_map (fun call => aggregate countOnly (returned call)) results).
Proof.
  intros H. revert retVal.
  induction H as [|call results [matches Hcall] H IH]; intros retVal.
  - simpl. now rewrite app_nil_r.
  - rewrite gather_step, Hcall, IH. cbn [flat_map].
    rewrite (returned_ok call matches Hcall). now rewrite <- app_assoc.
Qed.

Lemma flat_map_map {A B C : Type} (f : A -> B) (g : B -> list C) (l : list A) :
  flat_map g (map f l) = flat_map (fun x => g (f x)) l.
Proof.
  induction l as [|x l IH]; [reflexivity|]. simpl. now rewrite IH.
Qed.

(** With a positive worker bound and calls that all return, the dispatcher
    returns the aggregates of the files' result lists in file order. *)
Lemma SearchFilesInParallel_returned {lib : PyLib} (func : search_func)
    (files : list str)
    (pattern : str) (ignoreCase countOnly : bool) (buffPonies : Z) :
  (0 < buffPonies)%Z ->
  (forall file, In file files ->
     exists matches, snd (func file pattern ignoreCase) = Ok matches) ->
  snd (SearchFilesInParallel func files pattern ignoreCase countOnly buffPonies)
  = Ok (flat_map
          (fun file => aggregate countOnly (returned (func file pattern ignoreCase)))
          files).
Proof.
  intros Hw Hall. unfold SearchFilesInParallel.
  destruct (Z.leb_spec buffPonies 0) as [Hle|_]; [lia|].
  cbn [snd]. rewrite executor_map_map, gather_all_returned.
  - simpl. now rewrite flat_map_map.
  - apply Forall_forall. intros call Hin.
    apply in_map_iff in Hin as [file [<- Hin]]. now apply Hall.
Qed.

(** Once the pattern compiles, no searcher lets an exception escape. *)
Lemma searchers_return {lib : PyLib} (size : nat) (fs : filesystem)
    (filename pattern : str) (ignore_case : bool) (compiledPattern : Pattern) :
  re_compile pattern ignore_case = Ok compiledPattern ->
  (exists matches,
      snd (SearchInFlat size fs filename pattern ignore_case) = Ok matches)
  /\ (exists matches,
      snd (SearchInBz2 size fs filename pattern ignore_case) = Ok matches)
  /\ (exists matches,
      snd (SearchInGz size fs filename pattern ignore_case) = Ok matches).
Proof.
  intros Hc.
  destruct (isfile fs filename) eqn:Hfile.
  - destruct (open_rb fs filename) as [infile|e] eqn:Ho.
    + rewrite (SearchInFlat_stream size fs filename pattern ignore_case _ _ Hc Ho).
      rewrite (SearchInBz2_stream size fs filename pattern ignore_case _ _ Hc Ho).
      rewrite (SearchInGz_stream size fs filename pattern ignore_case _ _ Hc Ho).
      repeat split; eexists; reflexivity.
    + destruct (searchers_unopenable size fs filename pattern ignore_case
                  _ e Hfile Hc Ho) as (-> & -> & ->).
      repeat split; eexists; reflexivity.
  - destruct (searchers_missing size fs filename pattern ignore_case Hfile)
      as (-> & -> & ->).
    repeat split; eexists; reflexivity.
Qed.

Lemma stream_records_failed {lib : PyLib} (compiledPattern : Pattern)
    (filename : str) (stream : bytes * option str) (e : str) :
  snd stream = Some e ->
  stream_records compiledPattern filename stream =
  matching_records compiledPattern filename (complete_lines (fst stream))
  ++ [error_record filename e].
Proof. unfold stream_records. now intros ->. Qed.

(** C7.  When the stream of a file fails with an exception [e] while it is
    read or decoded, the search of that file stops there: the searcher
    returns the records of the lines completed before the failure followed
    by exactly one error record, and no exception escapes.  For a plain
    file with a fault at offset [k] these are the lines completed in the
    chunks that lie wholly before [k].  In a batch the result of every
    other file is the one it has in the batch without the failing file, and
    so is what the other files add to the output. *)
Theorem failing_stream_contained {lib : PyLib} (size : nat) (fs : filesystem)
    (filename pattern : str) (ignore_case : bool) (compiledPattern : Pattern)
    (infile : handle) (e : str) :
  re_compile pattern ignore_case = Ok compiledPattern ->
  open_rb fs filename = Ok infile ->
  (snd (delivered size infile) = Some e ->
   SearchInFlat size fs filename pattern ignore_case =
   ([], Ok (matching_records compiledPattern filename
              (complete_lines (fst (delivered size infile)))
            ++ [error_record filename e])))
  /\ (forall k : nat,
      0 < size -> h_fault infile = Some (k, e) -> k <= length (h_rest infile) ->
      SearchInFlat size fs filename pattern ignore_case =
      ([], Ok (matching_records compiledPattern filename
                 (complete_lines (firstn (k / size * size) (h_rest infile)))
               ++ [error_record filename e])))
  /\ (snd (delivered size (GzipFile infile)) = Some e ->
      SearchInGz size fs filename pattern ignore_case =
      ([], Ok (matching_records compiledPattern filename
                 (complete_lines (fst (delivered size (GzipFile infile))))
               ++ [error_record filename e])))
  /\ (snd (bz2_delivered size bz2_new infile) = Some e ->
      SearchInBz2 size fs filename pattern ignore_case =
      ([], Ok (matching_records compiledPattern filename
                 (complete_lines (fst (bz2_delivered size bz2_new infile)))
               ++ [error_record filename e])))
  /\ (forall (func : search_func) (before after : list str)
        (countOnly : bool) (buffPonies : Z),
      let batch files :=
        executor_map func files (repeat pattern (length files))
          (repeat ignore_case (length files)) in
      batch (before ++ filename :: after)
        = batch before ++ func filename pattern ignore_case :: batch after
      /\ batch (before ++ after) = batch before ++ batch after
      /\ forall out,
          snd (SearchFilesInParallel func (before ++ filename :: after)
                 pattern ignore_case countOnly buffPonies) = Ok out ->
          exists head tail,
            out = head
                  ++ aggregate countOnly (returned (func filename pattern ignore_case))
                  ++ tail
            /\ snd (SearchFilesInParallel func (before ++ after)
                      pattern ignore_case countOnly buffPonies)
               = Ok (head ++ tail)).
Proof.
  intros Hc Ho. split; [|split; [|split; [|split]]].
  - intros Hfail.
    rewrite (SearchInFlat_stream size fs filename pattern ignore_case _ _ Hc Ho).
    now rewrite (stream_records_failed _ _ _ e Hfail).
  - intros k Hsize Hfault Hk.
    rewrite (SearchInFlat_stream size fs filename pattern ignore_case _ _ Hc Ho).
    rewrite (delivered_fault size infile k e Hsize Hfault Hk).
    reflexivity.
  - intros Hfail.
    rewrite (SearchInGz_stream size fs filename pattern ignore_case _ _ Hc Ho).
    now rewrite (stream_records_failed _ _ _ e Hfail).
  - intros Hfail.
    rewrite (SearchInBz2_stream size fs filename pattern ignore_case _ _ Hc Ho).
    now rewrite (stream_records_failed _ _ _ e Hfail).
  - intros func before after countOnly buffPonies batch.
    subst batch. cbn beta. rewrite !executor_map_map.
    split; [now rewrite map_app|]. split; [now rewrite map_app|].
    intros out. unfold SearchFilesInParallel.
    destruct (Z.leb buffPonies 0); [discriminate|]. cbn [snd].
    rewrite !executor_map_map, !map_app. cbn [map].
    rewrite !gather_app.
    destruct (gather countOnly
                (map (fun file => func file pattern ignore_case) before) [])
      as [head|e1] eqn:Hbefore; [|discriminate].
    rewrite gather_step.
    destruct (snd (func filename pattern ignore_case)) as [matches|e2] eqn:Hcall;
      [|discriminate].
    rewrite (returned_ok _ matches Hcall).
    intros Hafter.
    pose proof (gather_returned _ _ _ _ Hafter) as Hout.
    set (rest := flat_map (fun call => aggregate countOnly (returned call))
                   (map (fun file => func file pattern ignore_case) after)) in *.
    exists head, rest. split.
    + now rewrite Hout, <- app_assoc.
    + assert (Hall : Forall (fun call => exists m, snd call = Ok m)
                       (map (fun file => func file pattern ignore_case) after)).
      { clear Hout rest. revert Hafter.
        generalize (head ++ aggregate countOnly matches).
        induction after as [|file after IH]; intros acc Hafter; [constructor|].
        cbn [map] in *. rewrite gather_step in Hafter.
        destruct (snd (func file pattern ignore_case)) as [m|e3] eqn:Hfile;
          [|discriminate].
        constructor; [now exists m|]. now apply (IH _ Hafter). }
      now rewrite (gather_all_returned _ _ head Hall).
Qed.

(** ** The label of a count record *)

Lemma str_split_first (s : str) :
  nth 0 (str_split ":" s) "" = before_colon s.
Proof.
  induction s as [|c s IH]; [reflexivity|].
  simpl. destruct (Ascii.eqb c ":"); [reflexivity|].
  destruct (str_split ":" s) as [|piece pieces]; simpl in *; now rewrite <- IH.
Qed.

Lemma count_record_cons (first : str) (rest : list str) :
  count_record (first :: rest) =
  before_colon first ^ ":" ^ str_of_nat (length (first :: rest)).
Proof. unfold count_record. cbn [nth]. now rewrite str_split_first. Qed.

Lemma before_colon_no_colon (a b : str) :
  has_colon a = false -> before_colon (a ^ String ":" b) = a.
Proof.
  induction a as [|c a IH]; [reflexivity|].
  simpl. destruct (Ascii.eqb c ":"); [discriminate|].
  simpl. intros H. now rewrite (IH H).
Qed.

Lemma before_colon_app (a b : str) :
  has_colon a = true -> before_colon (a ^ b) = before_colon a.
Proof.
  induction a as [|c a IH]; [discriminate|].
  simpl. destruct (Ascii.eqb c ":"); [reflexivity|].
  simpl. intros H. now rewrite (IH H).
Qed.

Lemma before_colon_has_no_colon (s : str) : has_colon (before_colon s) = false.
Proof.
  induction s as [|c s IH]; [reflexivity|].
  simpl. destruct (Ascii.eqb c ":") eqn:E; [reflexivity|].
  simpl. now rewrite E.
Qed.

Lemma has_colon_app (a b : str) :
  has_colon (a ^ b) = has_colon a || has_colon b.
Proof.
  induction a as [|c a IH]; [reflexivity|].
  simpl. rewrite IH. now rewrite orb_assoc.
Qed.

Lemma before_colon_shorter (s : str) :
  has_colon s = true -> before_colon s <> s.
Proof.
  intros H E. rewrite <- E, before_colon_has_no_colon in H. discriminate.
Qed.

Lemma before_colon_prefix (a b : str) :
  has_colon a = false -> before_colon (a ^ b) = a ^ before_colon b.
Proof.
  induction a as [|c a IH]; [reflexivity|].
  simpl. destruct (Ascii.eqb c ":"); [discriminate|].
  simpl. intros H. now rewrite (IH H).
Qed.

Lemma append_length (a b : str) :
  String.length (a ^ b) = String.length a + String.length b.
Proof.
  induction a as [|c a IH]; [reflexivity|]. simpl. now rewrite IH.
Qed.

(** The text of a record before its first colon: [count_record] labels a
    list of records with that of the first one.  For a match record it is
    the file path when the path holds no colon and a proper beginning of
    it otherwise; for an error marker it is never the path. *)
Lemma label_of_first_record {lib : PyLib} (file e first : str)
    (line : bytes) (rest : list str) :
  count_record (first :: rest)
    = before_colon first ^ ":" ^ str_of_nat (length (first :: rest))
  /\ (has_colon file = false -> before_colon (match_record file line) = file)
  /\ (has_colon file = true -> before_colon (match_record file line) <> file)
  /\ before_colon (error_record file e) <> file.
Proof.
  split; [apply count_record_cons|]. split; [|split].
  - intros H. unfold match_record.
    apply (before_colon_no_colon file (strip (decode_ignore line)) H).
  - intros H. unfold match_record. rewrite (before_colon_app _ _ H).
    now apply before_colon_shorter.
  - unfold error_record.
    rewrite (before_colon_prefix "[ERROR] Could not read " _ eq_refl).
    intros E.
    assert (Hcolon : has_colon file = false).
    { rewrite <- E, has_colon_app. apply before_colon_has_no_colon. }
    change (file ^ ": " ^ e) with (file ^ String ":" (" " ^ e)) in E.
    rewrite (before_colon_no_colon _ _ Hcolon) in E.
    apply (f_equal String.length) in E.
    rewrite append_length in E.
    change (String.length "[ERROR] Could not read ") with 23 in E. lia.
Qed.

(** When the dispatcher returns, in count mode its output holds, for
    each file in file order, one record [label:count] if the file has at
    least one record, with [count] the number of the file's records, and
    nothing if the file has none; so the output has as many records as
    there are files with a record.  The record is [file:count] when the
    file's first record is a match record and the path holds no colon.  In
    line mode the output is the concatenation of the files' records, to
    which a file without records adds nothing either. *)
Lemma dispatcher_count_and_line_mode {lib : PyLib} (func : search_func)
    (files : list str) (pattern : str) (ignoreCase : bool) (buffPonies : Z) :
  (0 < buffPonies)%Z ->
  (forall file, In file files ->
     exists matches, snd (func file pattern ignoreCase) = Ok matches) ->
  let records file := returned (func file pattern ignoreCase) in
  let count_records file :=
    match records file with
    | [] => []
    | first :: _ =>
        [before_colon first ^ ":" ^ str_of_nat (length (records file))]
    end in
  snd (SearchFilesInParallel func files pattern ignoreCase true buffPonies)
    = Ok (flat_map count_records files)
  /\ length (flat_map count_records files)
     = length (filter (fun file => negb (Nat.eqb (length (records file)) 0)) files)
  /\ (forall file line rest,
        records file = match_record file line :: rest ->
        has_colon file = false ->
        count_records file = [file ^ ":" ^ str_of_nat (length (records file))])
  /\ snd (SearchFilesInParallel func files pattern ignoreCase false buffPonies)
     = Ok (flat_map records files)
  /\ (forall file, records file = [] ->
        count_records file = [] /\ aggregate false (records file) = []).
Proof.
  intros Hw Hall records count_records.
  assert (Hcount : forall file, aggregate true (records file) = count_records file).
  { intros file. subst count_records. cbn beta.
    destruct (records file) as [|first rest] eqn:Hrec; [reflexivity|].
    unfold aggregate. now rewrite count_record_cons. }
  assert (Hline : forall file, aggregate false (records file) = records file).
  { intros file. now destruct (records file). }
  split; [|split; [|split; [|split]]].
  - rewrite (SearchFilesInParallel_returned _ _ _ _ _ _ Hw Hall).
    f_equal. apply flat_map_ext. exact Hcount.
  - clear Hall Hcount. induction files as [|file files IH]; [reflexivity|].
    cbn [flat_map filter]. rewrite length_app, IH.
    subst count_records. cbn beta.
    destruct (records file) as [|first rest]; reflexivity.
  - intros file line rest Hfirst Hcolon. subst count_records. cbn beta.
    rewrite Hfirst. cbn iota.
    replace (before_colon (match_record file line)) with file; [reflexivity|].
    symmetry.
    exact (before_colon_no_colon file (strip (decode_ignore line)) Hcolon).
  - rewrite (SearchFilesInParallel_returned _ _ _ _ _ _ Hw Hall).
    f_equal. apply flat_map_ext. exact Hline.
  - intros file Hnone. subst count_records. cbn beta. now rewrite Hnone.
Qed.

(** C10.  In count mode the dispatcher emits, for each file with at least
    one record, the record [label:count] whose label is the text of the
    file's first record before its first colon.  When the first record is
    a match record the label is the file path if the path holds no colon,
    and is not the path if it holds one; when the first record is an error
    marker the label is not the path.  The last case arises from
    SearchInFlat itself: for a regular file that cannot be opened, count
    mode emits a record with the count 1 under a label that is not the
    path. *)
Theorem count_label_from_first_record {lib : PyLib} (func : search_func)
    (files : list str) (pattern : str) (ignoreCase : bool) (buffPonies : Z) :
  (0 < buffPonies)%Z ->
  (forall file, In file files ->
     exists matches, snd (func file pattern ignoreCase) = Ok matches) ->
  let records file := returned (func file pattern ignoreCase) in
  let label file := before_colon (nth 0 (records file) "") in
  let emitted file :=
    match records file with
    | [] => []
    | _ :: _ => [label file ^ ":" ^ str_of_nat (length (records file))]
    end in
  snd (SearchFilesInParallel func files pattern ignoreCase true buffPonies)
    = Ok (flat_map emitted files)
  /\ (forall file line rest,
        records file = match_record file line :: rest ->
        (has_colon file = false -> label file = file)
        /\ (has_colon file = true -> label file <> file))
  /\ (forall file e rest,
        records file = error_record file e :: rest -> label file <> file)
  /\ (forall (size : nat) (fs : filesystem) (file e : str)
             (compiledPattern : Pattern),
        isfile fs file = true ->
        re_compile pattern ignoreCase = Ok compiledPattern ->
        open_rb fs file = Raised e ->
        exists unreadable,
          snd (SearchFilesInParallel (SearchInFlat size fs) [file] pattern
                 ignoreCase true buffPonies)
          = Ok [unreadable ^ ":1"]
          /\ unreadable <> file).
Proof.
  intros Hw Hall records label emitted.
  split; [|split; [|split]].
  - rewrite (SearchFilesInParallel_returned _ _ _ _ _ _ Hw Hall).
    f_equal. apply flat_map_ext. intros file. subst emitted label. cbn beta.
    fold (records file).
    destruct (records file) as [|first rest]; [reflexivity|].
    unfold aggregate. now rewrite count_record_cons.
  - intros file line rest Hfirst. subst label. cbn beta. rewrite Hfirst.
    cbn [nth].
    destruct (label_of_first_record file "" "" line []) as (_ & Hplain & Hcolon & _).
    now split.
  - intros file e rest Hfirst. subst label. cbn beta. rewrite Hfirst.
    cbn [nth].
    now destruct (label_of_first_record file e "" [] []) as (_ & _ & _ & Hmarker).
  - intros size fs file e compiledPattern Hfile Hc Hopen.
    destruct (searchers_unopenable size fs file pattern ignoreCase
                _ e Hfile Hc Hopen) as (Hflat & _).
    exists (before_colon (error_record file e)). split.
    + rewrite (SearchFilesInParallel_returned (SearchInFlat size fs) [file]
                 pattern ignoreCase true buffPonies Hw).
      * cbn [flat_map]. rewrite Hflat. unfold returned. cbn [snd aggregate].
        now rewrite count_record_cons, app_nil_r.
      * intros f [<-|[]]. rewrite Hflat. now eexists.
    + now destruct (label_of_first_record file e "" [] []) as (_ & _ & _ & Hmarker).
Qed.

(** ** Orchestrator *)

Lemma encoding_rank_cases (file : str) :
  encoding_rank file = 0 \/ encoding_rank file = 1 \/ encoding_rank file = 2.
Proof.
  unfold encoding_rank.
  destruct (String.eqb (DetectFileType file) "bz"); [now left|].
  destruct (String.eqb (DetectFileType file) "gz"); [right; now left|].
  right. now right.
Qed.

Lemma has_rank_detect (file : str) :
  (has_rank 0 file, has_rank 1 file, has_rank 2 file) =
  if String.eqb (DetectFileType file) "bz" then (true, false, false)
  else if String.eqb (DetectFileType file) "gz" then (false, true, false)
  else (false, false, true).
Proof.
  unfold has_rank, encoding_rank.
  destruct (String.eqb (DetectFileType file) "bz"); [reflexivity|].
  destruct (String.eqb (DetectFileType file) "gz"); reflexivity.
Qed.

Lemma classify_filter (allFiles bzFiles gzFiles flatFiles : list str) :
  classify allFiles bzFiles gzFiles flatFiles =
  (bzFiles ++ filter (has_rank 0) allFiles,
   gzFiles ++ filter (has_rank 1) allFiles,
   flatFiles ++ filter (has_rank 2) allFiles).
Proof.
  revert bzFiles gzFiles flatFiles.
  induction allFiles as [|file allFiles IH]; intros bzFiles gzFiles flatFiles.
  - simpl. now rewrite !app_nil_r.
  - cbn [classify filter]. pose proof (has_rank_detect file) as Hranks.
    destruct (String.eqb (DetectFileType file) "bz");
      [|destruct (String.eqb (DetectFileType file) "gz")];
      injection Hranks as -> -> ->; rewrite IH, <- app_assoc; reflexivity.
Qed.

Lemma has_rank_inv (r : nat) (file : str) :
  has_rank r file = true <-> encoding_rank file = r.
Proof. unfold has_rank. apply Nat.eqb_eq. Qed.

Lemma filter_rank_twice (r r' : nat) (files : list str) :
  filter (has_rank r) (filter (has_rank r') files) =
  if Nat.eqb r r' then filter (has_rank r) files else [].
Proof.
  destruct (Nat.eqb_spec r r') as [->|Hne];
    induction files as [|file files IH]; try reflexivity; cbn [filter].
  - destruct (has_rank r' file) eqn:H; cbn [filter]; rewrite ?H; now rewrite IH.
  - destruct (has_rank r' file) eqn:H'; cbn [filter]; [|exact IH].
    destruct (has_rank r file) eqn:H; [|exact IH].
    apply has_rank_inv in H, H'. congruence.
Qed.

Lemma pass_order_stable (r : nat) (allFiles : list str) :
  filter (has_rank r) (pass_order allFiles) = filter (has_rank r) allFiles.
Proof.
  unfold pass_order. rewrite !filter_app, !filter_rank_twice.
  destruct r as [|[|[|r]]]; cbn [Nat.eqb]; rewrite ?app_nil_r; try reflexivity.
  symmetry.
  induction allFiles as [|file allFiles IH]; [reflexivity|].
  cbn [filter]. destruct (has_rank (S (S (S r))) file) eqn:H; [|exact IH].
  apply has_rank_inv in H.
  destruct (encoding_rank_cases file) as [E|[E|E]]; lia.
Qed.

Lemma pass_order_sorted (allFiles : list str) :
  StronglySorted (fun a b => encoding_rank a <= encoding_rank b)
    (pass_order allFiles).
Proof.
  assert (Hblock : forall r files,
             StronglySorted (fun a b => encoding_rank a <= encoding_rank b)
               (filter (has_rank r) files)).
  { intros r files. induction files as [|file files IH]; [constructor|].
    cbn [filter]. destruct (has_rank r file) eqn:H; [|exact IH].
    constructor; [exact IH|].
    apply Forall_forall. intros other Hin.
    apply filter_In in Hin as [_ Hother].
    apply has_rank_inv in H, Hother. lia. }
  assert (Happ : forall l1 l2,
             StronglySorted (fun a b => encoding_rank a <= encoding_rank b) l1 ->
             StronglySorted (fun a b => encoding_rank a <= encoding_rank b) l2 ->
             (forall a b, In a l1 -> In b l2 -> encoding_rank a <= encoding_rank b) ->
             StronglySorted (fun a b => encoding_rank a <= encoding_rank b) (l1 ++ l2)).
  { intros l1 l2 H1 H2 Hcross. induction H1 as [|a l1 H1 IH Ha]; [exact H2|].
    simpl. constructor.
    - apply IH. intros x y Hx Hy. apply Hcross; [now right|exact Hy].
    - apply Forall_app. split; [exact Ha|].
      apply Forall_forall. intros y Hy. apply Hcross; [now left|exact Hy]. }
  unfold pass_order. apply Happ; [apply Hblock|apply Happ; try apply Hblock|].
  - intros a b Ha Hb. apply filter_In in Ha as [_ Ha], Hb as [_ Hb].
    apply has_rank_inv in Ha, Hb. lia.
  - intros a b Ha Hb. apply filter_In in Ha as [_ Ha].
    apply has_rank_inv in Ha. lia.
Qed.

Lemma pass_order_permutation (allFiles : list str) :
  Permutation (pass_order allFiles) allFiles.
Proof.
  unfold pass_order.
  induction allFiles as [|file allFiles IH]; [constructor|].
  cbn [filter]. pose proof (has_rank_detect file) as Hranks.
  destruct (String.eqb (DetectFileType file) "bz");
    [|destruct (String.eqb (DetectFileType file) "gz")];
    injection Hranks as -> -> ->.
  - simpl. now constructor.
  - symmetry. apply Permutation_cons_app. now symmetry.
  - symmetry. rewrite app_assoc. apply Permutation_cons_app.
    rewrite <- app_assoc. now symmetry.
Qed.

Lemma flat_map_agree {A B : Type} (f g : A -> list B) (l : list A) :
  (forall x, In x l -> f x = g x) -> flat_map f l = flat_map g l.
Proof.
  intros H. induction l as [|x l IH]; [reflexivity|].
  simpl. rewrite (H x (or_introl eq_refl)), IH; [reflexivity|].
  intros y Hy. apply H. now right.
Qed.

Lemma snd_bind {A B : Type} (m : io A) (k : A -> io B) (a : A) :
  snd m = Ok a -> snd (bind m k) = snd (k a).
Proof.
  destruct m as [out r]. simpl. intros ->. now destruct (k a).
Qed.

(** A pass adds the aggregates of its files to the output, in the order of
    the files. *)
Lemma pass_returned {lib : PyLib} (func : search_func) (files : list str)
    (pattern : str)
    (ignoreCase countOnly : bool) (buffPonies : Z) (matchedLines : list str) :
  (0 < buffPonies)%Z ->
  (forall file, In file files ->
     exists matches, snd (func file pattern ignoreCase) = Ok matches) ->
  snd (pass func files pattern ignoreCase countOnly buffPonies matchedLines)
  = Ok (matchedLines
        ++ flat_map
             (fun file => aggregate countOnly (returned (func file pattern ignoreCase)))
             files).
Proof.
  intros Hw Hall. unfold pass.
  destruct files as [|file files]; [simpl; now rewrite app_nil_r|].
  rewrite (snd_bind _ _ _
             (SearchFilesInParallel_returned _ _ _ _ countOnly _ Hw Hall)).
  reflexivity.
Qed.

Lemma executor_map_nth (func : search_func) (files : list str) (pattern : str)
    (ignoreCase : bool) (i : nat) :
  i < length files ->
  nth i (executor_map func files (repeat pattern (length files))
           (repeat ignoreCase (length files))) ([], Ok [])
  = func (nth i files "") pattern ignoreCase.
Proof.
  intros Hi. rewrite executor_map_map.
  rewrite (nth_indep _ _ (func "" pattern ignoreCase)) by (now rewrite length_map).
  apply (map_nth (fun file => func file pattern ignoreCase)).
Qed.

(** C4.  The output of a run is the concatenation of what the files add,
    taken in pass order: all bzip2 files, then all gzip files, then all
    plain files, each group in argument order, whatever the order of the
    arguments; and inside a pass the dispatcher binds the i-th result to
    the i-th file of its input list. *)
Theorem output_grouped_by_encoding {lib : PyLib} (fs : filesystem)
    (allFiles : list str) (pattern : str) (ignoreCase countOnly : bool)
    (buffPonies : Z) (compiledPattern : Pattern) :
  (0 < buffPonies)%Z ->
  re_compile pattern ignoreCase = Ok compiledPattern ->
  snd (search_all fs allFiles pattern ignoreCase countOnly buffPonies)
    = Ok (flat_map (contribution fs pattern ignoreCase countOnly)
            (pass_order allFiles))
  /\ StronglySorted (fun a b => encoding_rank a <= encoding_rank b)
       (pass_order allFiles)
  /\ Permutation (pass_order allFiles) allFiles
  /\ (forall r, filter (has_rank r) (pass_order allFiles)
                = filter (has_rank r) allFiles)
  /\ (forall (func : search_func) (files : list str) (i : nat),
        i < length files ->
        nth i (executor_map func files (repeat pattern (length files))
                 (repeat ignoreCase (length files))) ([], Ok [])
        = func (nth i files "") pattern ignoreCase).
Proof.
  intros Hw Hc.
  split; [|split; [apply pass_order_sorted|split;
    [apply pass_order_permutation|split;
      [intros r; apply pass_order_stable|intros; now apply executor_map_nth]]]].
  unfold search_all. rewrite classify_filter. cbn [app].
  assert (Hbz : forall files file, In file files -> exists matches,
               snd (SearchInBz2 CHUNK_SIZE fs file pattern ignoreCase) = Ok matches).
  { intros files file _.
    apply (searchers_return CHUNK_SIZE fs file pattern ignoreCase _ Hc). }
  assert (Hgz : forall files file, In file files -> exists matches,
               snd (SearchInGz CHUNK_SIZE fs file pattern ignoreCase) = Ok matches).
  { intros files file _.
    apply (searchers_return CHUNK_SIZE fs file pattern ignoreCase _ Hc). }
  assert (Hflat : forall files file, In file files -> exists matches,
               snd (SearchInFlat CHUNK_SIZE fs file pattern ignoreCase) = Ok matches).
  { intros files file _.
    apply (searchers_return CHUNK_SIZE fs file pattern ignoreCase _ Hc). }
  rewrite (snd_bind _ _ _ (pass_returned _ _ _ _ countOnly _ [] Hw (Hbz _))).
  rewrite (snd_bind _ _ _ (pass_returned _ _ _ _ countOnly _ _ Hw (Hgz _))).
  rewrite (pass_returned _ _ _ _ countOnly _ _ Hw (Hflat _)).
  unfold pass_order. rewrite !flat_map_app, <- app_assoc. cbn [app].
  f_equal. f_equal; [|f_equal]; apply flat_map_agree; intros file Hin;
    apply filter_In in Hin as [_ Hrank]; apply has_rank_inv in Hrank;
    unfold contribution, searcher_of; now rewrite Hrank.
Qed.

(** When a run reaches the output step with an output file that can be
    opened and written, the file receives the lines gathered by the
    passes. *)
Lemma Main_writes_matched_lines {lib : PyLib} (fs : filesystem) (args : Args)
    (pattern outputFile : str) (allFiles matchedLines : list str) :
  arg_help args = false ->
  arg_pattern args = Some pattern -> truthy (Some pattern) = true ->
  arg_files args <> [] ->
  snd (resolve_paths fs (arg_recursive args) (arg_files args) []) = Ok allFiles ->
  snd (search_all fs allFiles pattern (arg_ignore_case args) (arg_count args)
         (arg_workers args)) = Ok matchedLines ->
  arg_output args = Some outputFile -> truthy (Some outputFile) = true ->
  write_error fs outputFile = None ->
  write_fault fs outputFile (join_nl matchedLines ^ String "010" "") = None ->
  snd (Main fs args)
  = Ok (Some (outputFile, join_nl matchedLines ^ String "010" "")).
Proof.
  intros Hhelp Hpattern Htruthy Hfiles Hresolve Hsearch Houtput Hout Hwrite
    Hfault.
  unfold Main. rewrite Hhelp, Hpattern, Htruthy, Houtput, Hout.
  destruct (arg_files args) as [|file files] eqn:Hargs; [congruence|].
  cbn [negb orb].
  rewrite (snd_bind _ _ _ Hresolve), (snd_bind _ _ _ Hsearch).
  cbv zeta. now rewrite Hwrite, Hfault.
Qed.

(** ** Files that cannot be searched *)

(** C6 (amended).  For a path that is not a regular file, each stream
    searcher prints the diagnostic and returns the empty list, without an
    error record; for a regular file that cannot be opened, once the
    pattern compiles, each returns exactly one error record.  In neither
    case does an exception escape. *)
Theorem unavailable_file_outcome {lib : PyLib} (size : nat) (fs : filesystem)
    (filename pattern : str) (ignore_case : bool) :
  (isfile fs filename = false ->
   SearchInFlat size fs filename pattern ignore_case
     = (["[ERROR] File not found: " ^ filename], Ok [])
   /\ SearchInBz2 size fs filename pattern ignore_case
     = (["[ERROR] File not found: " ^ filename], Ok [])
   /\ SearchInGz size fs filename pattern ignore_case
     = (["[ERROR] File not found: " ^ filename], Ok []))
  /\ (forall (compiledPattern : Pattern) (e : str),
      isfile fs filename = true ->
      re_compile pattern ignore_case = Ok compiledPattern ->
      open_rb fs filename = Raised e ->
      SearchInFlat size fs filename pattern ignore_case
        = ([], Ok [error_record filename e])
      /\ SearchInBz2 size fs filename pattern ignore_case
        = ([], Ok [error_record filename e])
      /\ SearchInGz size fs filename pattern ignore_case
        = ([], Ok [error_record filename e])).
Proof.
  split.
  - apply searchers_missing.
  - intros compiledPattern e. apply searchers_unopenable.
Qed.

(** ** Default worker count *)

(** C9 (amended).  Without [-w], on a machine with [n] cores the worker
    bound is [max(1, n - 1)]: [n - 1] from two cores on, and 1 below. *)
Theorem default_workers_at_least_one (n : Z) :
  ParseArgs_workers (Some n) None
  = Ok (if (2 <=? n)%Z then (n - 1)%Z else 1%Z).
Proof.
  unfold ParseArgs_workers. f_equal.
  destruct (Z.leb_spec 2 n); lia.
Qed.

(** ** Compressed and plain searches *)

Lemma matching_records_texts {lib : PyLib} (compiledPattern : Pattern)
    (filename : str) (lines : list bytes) :
  matching_records compiledPattern filename lines =
  map (fun text => filename ^ ":" ^ text)
      (map (fun line => strip (decode_ignore line))
           (filter (re_search compiledPattern) lines)).
Proof. unfold matching_records, match_record. now rewrite map_map. Qed.

(** C3.  Let [gzip_compress] and [bz2_compress] be compressors that the
    [gzip] file object and the [bz2] decompressor undo, the latter
    whatever the cut of the compressed data into chunks.  Then for every
    content and pattern, SearchInGz on the gzip-compressed content and
    SearchInBz2 on the bzip2-compressed content return the same lines, in
    the same order, as SearchInFlat on the content itself, each list under
    the name of the file searched; a trailing unterminated line is dropped
    by all three alike, and a malformed pattern raises in all three
    alike. *)
Theorem compressed_search_agrees {lib : PyLib}
    (gzip_compress bz2_compress : bytes -> bytes) (size : nat)
    (fs_plain fs_gz fs_bz : filesystem) (plain gz bz pattern : str)
    (ignore_case : bool) (content : bytes) :
  0 < size ->
  (forall data,
      GzipFile {| h_rest := gzip_compress data; h_fault := None |}
      = {| h_rest := data; h_fault := None |}) ->
  (forall data pieces,
      concat pieces = bz2_compress data ->
      Forall (fun piece => piece <> []) pieces ->
      bz2_feed bz2_new pieces = (data, None)) ->
  open_rb fs_plain plain = Ok {| h_rest := content; h_fault := None |} ->
  open_rb fs_gz gz = Ok {| h_rest := gzip_compress content; h_fault := None |} ->
  open_rb fs_bz bz = Ok {| h_rest := bz2_compress content; h_fault := None |} ->
  match re_compile pattern ignore_case with
  | Raised e =>
      SearchInFlat size fs_plain plain pattern ignore_case = ([], Raised e)
      /\ SearchInGz size fs_gz gz pattern ignore_case = ([], Raised e)
      /\ SearchInBz2 size fs_bz bz pattern ignore_case = ([], Raised e)
  | Ok compiledPattern =>
      let texts :=
        map (fun line => strip (decode_ignore line))
            (filter (re_search compiledPattern) (complete_lines content)) in
      SearchInFlat size fs_plain plain pattern ignore_case
        = ([], Ok (map (fun text => plain ^ ":" ^ text) texts))
      /\ SearchInGz size fs_gz gz pattern ignore_case
        = ([], Ok (map (fun text => gz ^ ":" ^ text) texts))
      /\ SearchInBz2 size fs_bz bz pattern ignore_case
        = ([], Ok (map (fun text => bz ^ ":" ^ text) texts))
  end.
Proof.
  intros Hsize Hgzip Hbz2 Hplain Hgz Hbz.
  destruct (re_compile pattern ignore_case) as [compiledPattern|e] eqn:Hc.
  - cbn zeta. rewrite <- !matching_records_texts. repeat split.
    + rewrite (SearchInFlat_stream size fs_plain plain pattern ignore_case
                 _ _ Hc Hplain).
      rewrite (delivered_sound size {| h_rest := content; h_fault := None |}
                 Hsize eq_refl).
      cbn [h_rest]. now rewrite stream_records_sound.
    + rewrite (SearchInGz_stream size fs_gz gz pattern ignore_case _ _ Hc Hgz).
      rewrite Hgzip.
      rewrite (delivered_sound size {| h_rest := content; h_fault := None |}
                 Hsize eq_refl).
      cbn [h_rest]. now rewrite stream_records_sound.
    + rewrite (SearchInBz2_stream size fs_bz bz pattern ignore_case _ _ Hc Hbz).
      rewrite (bz2_delivered_feed size bz2_new
                 {| h_rest := bz2_compress content; h_fault := None |} eq_refl).
      cbn [h_rest].
      rewrite (Hbz2 content _ (chunks_concat size _ Hsize) (chunks_nonempty size _)).
      now rewrite stream_records_sound.
  - pose proof (searchers_bad_pattern size fs_plain plain pattern ignore_case e
                  (open_rb_isfile _ _ _ Hplain) Hc) as (H1 & _ & _).
    pose proof (searchers_bad_pattern size fs_gz gz pattern ignore_case e
                  (open_rb_isfile _ _ _ Hgz) Hc) as (_ & _ & H2).
    pose proof (searchers_bad_pattern size fs_bz bz pattern ignore_case e
                  (open_rb_isfile _ _ _ Hbz) Hc) as (_ & H3 & _).
    now rewrite H1, H2, H3.
Qed.

(** ** The executable library undoes its compressors *)

Lemma stored_decompress_cut (awaited chunk tail data : bytes) :
  chunk ++ tail = awaited ++ data ->
  exists out awaited' data',
    Stored.decompress awaited chunk = Ok (out, awaited')
    /\ tail = awaited' ++ data' /\ data = out ++ data'.
Proof.
  revert chunk. induction awaited as [|m awaited IH]; intros chunk H.
  - exists chunk, [], tail. simpl in *. now destruct chunk.
  - destruct chunk as [|c chunk].
    + exists [], (m :: awaited), data. now simpl in *.
    + simpl in H. injection H as -> H. simpl.
      rewrite (Byte.byte_dec_lb (x := m) eq_refl). now apply IH.
Qed.

Lemma stored_feed_round_trip (awaited data : bytes) (pieces : list bytes) :
  concat pieces = awaited ++ data ->
  bz2_feed (lib := Stored.lib) awaited pieces = (data, None).
Proof.
  revert awaited data. induction pieces as [|piece pieces IH];
    intros awaited data H.
  - simpl in H. symmetry in H. apply app_eq_nil in H as [-> ->]. reflexivity.
  - simpl in H.
    destruct (stored_decompress_cut awaited piece (concat pieces) data H)
      as (out & awaited' & data' & Hdec & Htail & ->).
    cbn [bz2_feed]. cbn [bz2_decompress Stored.lib]. rewrite Hdec.
    now rewrite (IH awaited' data' Htail).
Qed.

Lemma stored_bz2_round_trip (data : bytes) (pieces : list bytes) :
  concat pieces = Stored.bz2_compress data ->
  Forall (fun piece => piece <> []) pieces ->
  bz2_feed (lib := Stored.lib) (bz2_new (PyLib := Stored.lib)) pieces = (data, None).
Proof.
  intros H _. exact (stored_feed_round_trip Stored.bz2_magic data pieces H).
Qed.

Lemma stored_gzip_round_trip (data : bytes) :
  GzipFile (PyLib := Stored.lib)
    {| h_rest := Stored.gzip_compress data; h_fault := None |}
  = {| h_rest := data; h_fault := None |}.
Proof. reflexivity. Qed.

(** * The claims on the sample file system *)

Ltac no_newline_here :=
  repeat constructor; unfold no_newline; simpl; intuition discriminate.

(** C1 on the sample log, whose unterminated last line holds the pattern:
    the three searchers return the two terminated lines that match and
    nothing for the last line. *)
Lemma trailing_fragment_dropped_witness :
  re_search (PyLib := Stored.lib) Sample.error_pattern Sample.tail = true
  /\ SearchInFlat (lib := Stored.lib) 4 Sample.fs "log.txt" "error" false
     = ([], Ok ["log.txt:alpha error"; "log.txt:an error here"])
  /\ SearchInGz (lib := Stored.lib) 4 Sample.fs "log.txt.gz" "error" false
     = ([], Ok ["log.txt.gz:alpha error"; "log.txt.gz:an error here"])
  /\ SearchInBz2 (lib := Stored.lib) 4 Sample.fs "log.txt.bz2" "error" false
     = ([], Ok ["log.txt.bz2:alpha error"; "log.txt.bz2:an error here"]).
Proof.
  split; [reflexivity|].
  assert (Hlines : Forall no_newline Sample.lines) by no_newline_here.
  assert (Htail : no_newline Sample.tail) by no_newline_here.
  split; [|split].
  - destruct (trailing_fragment_dropped (lib := Stored.lib) 4 Sample.fs
                "log.txt" "error" false Sample.error_pattern
                {| h_rest := Sample.content; h_fault := None |}
                Sample.lines Sample.tail ltac:(lia) Hlines Htail
                eq_refl eq_refl) as (Hflat & _).
    exact (Hflat eq_refl).
  - destruct (trailing_fragment_dropped (lib := Stored.lib) 4 Sample.fs
                "log.txt.gz" "error" false Sample.error_pattern
                {| h_rest := Stored.gzip_compress Sample.content;
                   h_fault := None |}
                Sample.lines Sample.tail ltac:(lia) Hlines Htail
                eq_refl eq_refl) as (_ & Hgz & _).
    exact (Hgz eq_refl).
  - destruct (trailing_fragment_dropped (lib := Stored.lib) 4 Sample.fs
                "log.txt.bz2" "error" false Sample.error_pattern
                {| h_rest := Stored.bz2_compress Sample.content;
                   h_fault := None |}
                Sample.lines Sample.tail ltac:(lia) Hlines Htail
                eq_refl eq_refl) as (_ & _ & Hbz & _).
    apply Hbz; [reflexivity|vm_compute; reflexivity].
Defined.

(** C2 on the sample log read five bytes at a time. *)
Lemma chunked_search_is_linewise_witness :
  SearchInFlat (lib := Stored.lib) 5 Sample.fs "log.txt" "error" false
    = ([], Ok ["log.txt:alpha error"; "log.txt:an error here"])
  /\ Forall no_newline (terminated_lines Sample.content)
  /\ (exists rest,
        no_newline rest
        /\ Sample.content = unlines (terminated_lines Sample.content) ++ rest).
Proof.
  apply (chunked_search_is_linewise (lib := Stored.lib) 5 Sample.fs
           "log.txt" "error" false Sample.error_pattern Sample.content).
  - lia.
  - reflexivity.
  - reflexivity.
Defined.

(** C3 on the sample log and its two stored forms. *)
Lemma compressed_search_agrees_witness :
  SearchInFlat (lib := Stored.lib) 3 Sample.fs "log.txt" "error" false
    = ([], Ok (map (fun text => "log.txt" ^ ":" ^ text)
                 ["alpha error"; "an error here"]))
  /\ SearchInGz (lib := Stored.lib) 3 Sample.fs "log.txt.gz" "error" false
    = ([], Ok (map (fun text => "log.txt.gz" ^ ":" ^ text)
                 ["alpha error"; "an error here"]))
  /\ SearchInBz2 (lib := Stored.lib) 3 Sample.fs "log.txt.bz2" "error" false
    = ([], Ok (map (fun text => "log.txt.bz2" ^ ":" ^ text)
                 ["alpha error"; "an error here"])).
Proof.
  apply (compressed_search_agrees (lib := Stored.lib)
           Stored.gzip_compress Stored.bz2_compress 3
           Sample.fs Sample.fs Sample.fs
           "log.txt" "log.txt.gz" "log.txt.bz2" "error" false Sample.content).
  - lia.
  - exact stored_gzip_round_trip.
  - exact stored_bz2_round_trip.
  - reflexivity.
  - reflexivity.
  - reflexivity.
Defined.

(** C4 on a command line that names the plain log first and the bzip2 log
    last: the bzip2 records come first in the output. *)
Lemma output_grouped_by_encoding_witness :
  snd (search_all (lib := Stored.lib) Sample.fs
         ["log.txt"; "log.txt.gz"; "log.txt.bz2"] "alpha" false false 2)
  = Ok ["log.txt.bz2:alpha error"; "log.txt.gz:alpha error"; "log.txt:alpha error"]
  /\ pass_order ["log.txt"; "log.txt.gz"; "log.txt.bz2"]
     = ["log.txt.bz2"; "log.txt.gz"; "log.txt"].
Proof.
  destruct (output_grouped_by_encoding (lib := Stored.lib) Sample.fs
              ["log.txt"; "log.txt.gz"; "log.txt.bz2"] "alpha" false false 2
              {| Stored.lit_text := list_byte_of_string "alpha";
                 Stored.lit_ignore_case := false |})
    as (Hout & _).
  - lia.
  - reflexivity.
  - split; [exact Hout|reflexivity].
Defined.

(** C5.  Count mode on the sample file [a:b.txt], two lines of which hold
    the pattern: the record emitted is [a:2], under a label that is not the
    file, while line mode names the file in full in both records.  For the
    file that cannot be opened, the label is the beginning of the error
    marker.  For files of which the first record is a match record under a
    path without a colon the record is [file:count], and a file without a
    record has none. *)
Theorem count_mode_mislabels_colon_path :
  snd (SearchFilesInParallel (lib := Stored.lib)
         (SearchInFlat (lib := Stored.lib) 4 Sample.fs)
         ["a:b.txt"] "error" false true 2)
  = Ok ["a:2"]
  /\ snd (SearchFilesInParallel (lib := Stored.lib)
            (SearchInFlat (lib := Stored.lib) 4 Sample.fs)
            ["a:b.txt"] "error" false false 2)
     = Ok ["a:b.txt:alpha error"; "a:b.txt:an error here"]
  /\ snd (SearchFilesInParallel (lib := Stored.lib)
            (SearchInFlat (lib := Stored.lib) 4 Sample.fs)
            ["locked.txt"] "error" false true 2)
     = Ok ["[ERROR] Could not read locked.txt:1"]
  /\ snd (SearchFilesInParallel (lib := Stored.lib)
            (SearchInFlat (lib := Stored.lib) 4 Sample.fs)
            ["log.txt"; "quiet.txt"; "damaged.txt"] "error" false true 2)
     = Ok ["log.txt:2"; "damaged.txt:2"].
Proof. repeat split; vm_compute; reflexivity. Qed.

(** C6 (amended) on a path that does not exist and on the locked file. *)
Lemma unavailable_file_outcome_witness :
  SearchInBz2 (lib := Stored.lib) CHUNK_SIZE Sample.fs "missing.bz2" "error" false
    = (["[ERROR] File not found: missing.bz2"], Ok [])
  /\ SearchInFlat (lib := Stored.lib) CHUNK_SIZE Sample.fs "locked.txt" "error" false
    = ([], Ok ["[ERROR] Could not read locked.txt: [Errno 13] Permission denied: 'locked.txt'"]).
Proof.
  split.
  - destruct (unavailable_file_outcome (lib := Stored.lib) CHUNK_SIZE Sample.fs
                "missing.bz2" "error" false) as [Hmissing _].
    destruct (Hmissing eq_refl) as (_ & Hbz2 & _). exact Hbz2.
  - destruct (unavailable_file_outcome (lib := Stored.lib) CHUNK_SIZE Sample.fs
                "locked.txt" "error" false) as [_ Hlocked].
    destruct (Hlocked Sample.error_pattern
                "[Errno 13] Permission denied: 'locked.txt'"
                eq_refl eq_refl eq_refl) as (Hflat & _).
    exact Hflat.
Defined.

(** The claim C6 as stated fails: the search of a path that does not exist
    returns no record at all, and with a malformed pattern the search of
    the locked file lets the exception escape. *)
Lemma missing_file_yields_no_error_record :
  ~ (exists record,
        snd (SearchInFlat (lib := Stored.lib) CHUNK_SIZE Sample.fs
               "missing.txt" "error" false) = Ok [record])
  /\ snd (SearchInFlat (lib := Stored.lib) CHUNK_SIZE Sample.fs
            "locked.txt" "(" false) = Raised "bad pattern: (".
Proof.
  split; [|reflexivity].
  intros [record H]. vm_compute in H. discriminate.
Qed.

(** C7 on the damaged file read four bytes at a time, where the first
    line is complete before the damaged sector and matches, on the two
    files that are not what their suffix says, and on a batch with the
    damaged file in the middle. *)
Lemma failing_stream_contained_witness :
  SearchInFlat (lib := Stored.lib) 4 Sample.fs "damaged.txt" "error" false
  = ([], Ok ["damaged.txt:alpha error";
             "[ERROR] Could not read damaged.txt: [Errno 5] Input/output error"])
  /\ SearchInGz (lib := Stored.lib) 4 Sample.fs "broken.gz" "error" false
    = ([], Ok ["[ERROR] Could not read broken.gz: Not a gzipped file"])
  /\ SearchInBz2 (lib := Stored.lib) 4 Sample.fs "broken.bz2" "error" false
    = ([], Ok ["[ERROR] Could not read broken.bz2: Invalid data stream"])
  /\ (exists head tail,
        ["log.txt:alpha error"; "log.txt:an error here";
         "damaged.txt:alpha error";
         "[ERROR] Could not read damaged.txt: [Errno 5] Input/output error";
         "a:b.txt:alpha error"; "a:b.txt:an error here"]
        = head
          ++ aggregate false
               (returned (SearchInFlat (lib := Stored.lib) 4 Sample.fs
                            "damaged.txt" "error" false))
          ++ tail
        /\ snd (SearchFilesInParallel (lib := Stored.lib)
                  (SearchInFlat (lib := Stored.lib) 4 Sample.fs)
                  (["log.txt"] ++ ["quiet.txt"; "a:b.txt"]) "error" false false 2)
           = Ok (head ++ tail)).
Proof.
  destruct (failing_stream_contained (lib := Stored.lib) 4 Sample.fs
              "damaged.txt" "error" false Sample.error_pattern
              {| h_rest := Sample.content;
                 h_fault := Some (14, "[Errno 5] Input/output error") |}
              "[Errno 5] Input/output error" eq_refl eq_refl)
    as (_ & Hflat & _ & _ & Hbatch).
  destruct (failing_stream_contained (lib := Stored.lib) 4 Sample.fs
              "broken.gz" "error" false Sample.error_pattern
              {| h_rest := Sample.content; h_fault := None |}
              "Not a gzipped file" eq_refl eq_refl)
    as (_ & _ & Hgz & _).
  destruct (failing_stream_contained (lib := Stored.lib) 4 Sample.fs
              "broken.bz2" "error" false Sample.error_pattern
              {| h_rest := list_byte_of_string "BZ" ++ Sample.content;
                 h_fault := None |}
              "Invalid data stream" eq_refl eq_refl)
    as (_ & _ & _ & Hbz2 & _).
  split; [|split; [|split]].
  - apply (Hflat 14); [lia|reflexivity|vm_compute; lia].
  - exact (Hgz eq_refl).
  - exact (Hbz2 eq_refl).
  - destruct (Hbatch (SearchInFlat (lib := Stored.lib) 4 Sample.fs)
                ["log.txt"] ["quiet.txt"; "a:b.txt"] false 2%Z)
      as (_ & _ & Hout).
    apply Hout. reflexivity.
Defined.

(** C8 after the first pass of each loop over the sample log read sixteen
    bytes at a time. *)
Lemma chunk_buffer_invariant_witness :
  (let s :=
     {| rs_infile := {| h_rest := skipn 32 Sample.content; h_fault := None |};
        rs_buffer := list_byte_of_string "beta";
        rs_chunk := firstn 16 (skipn 16 Sample.content);
        rs_retVal := ["log.txt:alpha error"] |} in
   no_newline (rs_buffer s)
   /\ bytes_split nl (firstn 16 Sample.content)
      = complete_lines (firstn 16 Sample.content) ++ [rs_buffer s]
   /\ rs_retVal s
      = matching_records (lib := Stored.lib) Sample.error_pattern "log.txt"
          (complete_lines (firstn 16 Sample.content)))
  /\ (let s :=
        {| bs_decompressor := [] : BZ2Decompressor (PyLib := Stored.lib);
           bs_infile :=
             {| h_rest := skipn 32 (Stored.bz2_compress Sample.content);
                h_fault := None |};
           bs_buffer := list_byte_of_string "b";
           bs_chunk := firstn 16 (skipn 16 (Stored.bz2_compress Sample.content));
           bs_retVal := ["log.txt.bz2:alpha error"] |} in
      no_newline (bs_buffer s)
      /\ bytes_split nl (firstn 13 Sample.content)
         = complete_lines (firstn 13 Sample.content) ++ [bs_buffer s]
      /\ bs_retVal s
         = matching_records (lib := Stored.lib) Sample.error_pattern
             "log.txt.bz2" (complete_lines (firstn 13 Sample.content))).
Proof.
  destruct (chunk_buffer_invariant (lib := Stored.lib) 16 Sample.error_pattern
              "log.txt") as [Hread _].
  destruct (chunk_buffer_invariant (lib := Stored.lib) 16 Sample.error_pattern
              "log.txt.bz2") as [_ Hbz2].
  split.
  - apply (Hread (firstn 16 Sample.content)).
    apply (read_reach_pass (lib := Stored.lib) 16 Sample.error_pattern "log.txt" []
             {| rs_infile :=
                  {| h_rest := skipn 16 Sample.content; h_fault := None |};
                rs_buffer := [];
                rs_chunk := firstn 16 Sample.content;
                rs_retVal := [] |}).
    + apply read_reach_enter.
    + reflexivity.
  - apply (Hbz2 (firstn 13 Sample.content)).
    apply (bz2_reach_pass (lib := Stored.lib) 16 Sample.error_pattern
             "log.txt.bz2" [] (firstn 13 Sample.content)
             ([] : BZ2Decompressor (PyLib := Stored.lib))
             {| bs_decompressor := bz2_new (PyLib := Stored.lib);
                bs_infile :=
                  {| h_rest := skipn 16 (Stored.bz2_compress Sample.content);
                     h_fault := None |};
                bs_buffer := [];
                bs_chunk := firstn 16 (Stored.bz2_compress Sample.content);
                bs_retVal := [] |}).
    + apply bz2_reach_enter.
    + reflexivity.
    + reflexivity.
Defined.

(** The claim C9 as stated fails on a single-core machine, where the
    default is 1 and not 0. *)
Lemma single_core_default_is_one :
  ParseArgs_workers (Some 1%Z) None = Ok 1%Z
  /\ ParseArgs_workers (Some 1%Z) None <> Ok (1 - 1)%Z.
Proof. split; [reflexivity|discriminate]. Qed.

(** C10 on a batch of the sample log, the file with a colon in its path
    and the file that cannot be opened. *)
Lemma count_label_from_first_record_witness :
  snd (SearchFilesInParallel (lib := Stored.lib)
         (SearchInFlat (lib := Stored.lib) 4 Sample.fs)
         ["log.txt"; "a:b.txt"; "locked.txt"] "error" false true 2)
  = Ok ["log.txt:2"; "a:2"; "[ERROR] Could not read locked.txt:1"]
  /\ before_colon
       (nth 0 (returned (SearchInFlat (lib := Stored.lib) 4 Sample.fs
                           "a:b.txt" "error" false)) "")
     <> "a:b.txt".
Proof.
  destruct (count_label_from_first_record (lib := Stored.lib)
              (SearchInFlat (lib := Stored.lib) 4 Sample.fs)
              ["log.txt"; "a:b.txt"; "locked.txt"] "error" false 2)
    as (Hemitted & Hmatch & _).
  - lia.
  - intros file [<-|[<-|[<-|[]]]]; eexists; vm_compute; reflexivity.
  - split; [exact Hemitted|].
    destruct (Hmatch "a:b.txt" (list_byte_of_string "alpha error")
                ["a:b.txt:an error here"] eq_refl) as (_ & Hcolon).
    exact (Hcolon eq_refl).
Defined.

(** * Further properties of the program *)

(** ** Encoding classifier *)

Lemma substring_whole (s : str) : substring 0 (String.length s) s = s.
Proof. induction s as [|c s IH]; [reflexivity|]. simpl. now rewrite IH. Qed.

Lemma substring_append_right (a b : str) :
  substring (String.length a) (String.length b) (a ^ b) = b.
Proof.
  induction a as [|c a IH]; [apply substring_whole|exact IH].
Qed.

Lemma substring_cut (s : str) (k : nat) :
  k <= String.length s ->
  s = substring 0 k s ^ substring k (String.length s - k) s.
Proof.
  revert k. induction s as [|c s IH]; intros k Hk.
  - destruct k; reflexivity.
  - destruct k as [|k].
    + simpl. now rewrite substring_whole.
    + simpl in *. f_equal. apply IH. lia.
Qed.

Lemma endswith_suffix (s suffix : str) :
  endswith s suffix = true <-> exists stem, s = stem ^ suffix.
Proof.
  unfold endswith. split.
  - intros H. apply andb_prop in H as [Hle Heq].
    apply Nat.leb_le in Hle. apply String.eqb_eq in Heq.
    pose proof (substring_cut s (String.length s - String.length suffix)
                  ltac:(lia)) as Hcut.
    replace (String.length s - (String.length s - String.length suffix))
      with (String.length suffix) in Hcut by lia.
    rewrite Heq in Hcut.
    now exists (substring 0 (String.length s - String.length suffix) s).
  - intros [stem ->]. rewrite append_length.
    replace (String.length stem + String.length suffix - String.length suffix)
      with (String.length stem) by lia.
    rewrite substring_append_right, String.eqb_refl.
    apply andb_true_intro. split; [apply Nat.leb_le; lia|reflexivity].
Qed.

Lemma append_same_length_inj (a b x y : str) :
  String.length x = String.length y -> a ^ x = b ^ y -> x = y.
Proof.
  revert b. induction a as [|c a IH]; intros b Hlen H.
  - destruct b as [|d b]; [exact H|].
    apply (f_equal String.length) in H. simpl in H.
    rewrite append_length in H. lia.
  - destruct b as [|d b].
    + apply (f_equal String.length) in H. simpl in H.
      rewrite append_length in H. lia.
    + simpl in H. injection H as _ H. now apply (IH b).
Qed.

Lemma append_assoc (a b c : str) : (a ^ b) ^ c = a ^ b ^ c.
Proof. induction a as [|x a IH]; [reflexivity|]. simpl. now rewrite IH. Qed.

Lemma bz2_suffix_not_gz (a b : str) : a ^ ".bz2" <> b ^ ".gz".
Proof.
  intros H. change (a ^ ".bz2") with (a ^ "." ^ "bz2") in H.
  rewrite <- append_assoc in H.
  apply append_same_length_inj in H; [discriminate|reflexivity].
Qed.

(** X1.  DetectFileType answers by suffix alone: ['bz'] exactly for the
    names that end in [.bz2], ['gz'] exactly for those that end in [.gz],
    and ['txt'] exactly for all the others. *)
Theorem DetectFileType_by_suffix (filename : str) :
  (DetectFileType filename = "bz" <-> exists stem, filename = stem ^ ".bz2")
  /\ (DetectFileType filename = "gz" <-> exists stem, filename = stem ^ ".gz")
  /\ (DetectFileType filename = "txt" <->
      ~ (exists stem, filename = stem ^ ".bz2")
      /\ ~ (exists stem, filename = stem ^ ".gz")).
Proof.
  unfold DetectFileType.
  pose proof (endswith_suffix filename ".bz2") as Hbz.
  pose proof (endswith_suffix filename ".gz") as Hgz.
  destruct (endswith filename ".bz2") eqn:Ebz.
  - destruct (proj1 Hbz eq_refl) as [stem Hstem].
    split; [|split]; split; try discriminate; try reflexivity.
    + intros _. now exists stem.
    + intros [stem' Hstem']. exfalso. subst filename.
      now apply (bz2_suffix_not_gz stem stem').
    + intros [Hno _]. exfalso. apply Hno. now exists stem.
  - assert (Hnobz : ~ (exists stem, filename = stem ^ ".bz2")).
    { intros H. apply Hbz in H. discriminate. }
    destruct (endswith filename ".gz") eqn:Egz.
    + split; [|split]; split; try discriminate; try reflexivity.
      * intros H. exfalso. now apply Hnobz.
      * intros _. now apply Hgz.
      * intros [_ Hno]. exfalso. apply Hno. now apply Hgz.
    + assert (Hnogz : ~ (exists stem, filename = stem ^ ".gz")).
      { intros H. apply Hgz in H. discriminate. }
      split; [|split]; split; try discriminate; try reflexivity.
      * intros H. exfalso. now apply Hnobz.
      * intros H. exfalso. now apply Hnogz.
      * intros _. now split.
Qed.

(** ** Split and hold back *)

(** X2.  Lines 203-204 take a buffer apart without losing a byte: the
    split never yields an empty list, so the [pop] cannot raise; the lines
    and the remainder it gives hold no newline and, with a newline put
    back after each line, rebuild the buffer; and a buffer built that way
    is taken apart into the same lines and remainder. *)
Theorem split_and_hold_back_round_trip (buffer rest : bytes) (lines : list bytes) :
  pop (bytes_split nl buffer) <> None
  /\ (pop (bytes_split nl buffer) = Some (lines, rest) ->
      Forall no_newline lines /\ no_newline rest
      /\ buffer = unlines lines ++ rest)
  /\ (Forall no_newline lines -> no_newline rest ->
      pop (bytes_split nl (unlines lines ++ rest)) = Some (lines, rest)).
Proof.
  rewrite pop_bytes_split. split; [discriminate|]. split.
  - intros [= <- <-]. split; [apply complete_lines_no_newline|].
    split; [apply fragment_no_newline|].
    symmetry. apply unlines_complete_lines.
  - intros Hlines Hrest. rewrite pop_bytes_split.
    now destruct (complete_lines_unlines lines rest Hlines Hrest) as [-> ->].
Qed.

Lemma split_and_hold_back_round_trip_witness :
  pop (bytes_split nl (unlines Sample.lines ++ Sample.tail))
  = Some (Sample.lines, Sample.tail).
Proof.
  destruct (split_and_hold_back_round_trip [] Sample.tail Sample.lines)
    as (_ & _ & Hbuild).
  apply Hbuild; no_newline_here.
Defined.

(** ** Stream searchers: escapes, composition and edge cases *)

Lemma fragment_after_newline (data : bytes) : fragment (data ++ [nl]) = [].
Proof.
  rewrite fragment_app.
  exact (fragment_line (fragment data) [] (fragment_no_newline data)).
Qed.

Lemma SearchInFlat_sound {lib : PyLib} (size : nat) (fs : filesystem)
    (filename pattern : str) (ignore_case : bool) (compiledPattern : Pattern)
    (content : bytes) :
  0 < size ->
  re_compile pattern ignore_case = Ok compiledPattern ->
  open_rb fs filename = Ok {| h_rest := content; h_fault := None |} ->
  SearchInFlat size fs filename pattern ignore_case
  = ([], Ok (matching_records compiledPattern filename (complete_lines content))).
Proof.
  intros Hsize Hc Ho.
  rewrite (SearchInFlat_stream size fs filename pattern ignore_case _ _ Hc Ho).
  rewrite (delivered_sound size {| h_rest := content; h_fault := None |}
             Hsize eq_refl).
  cbn [h_rest]. now rewrite stream_records_sound.
Qed.

(** X4.  Searching a plain file that grew.  When a content is extended,
    the search of the longer content returns the records of the shorter one
    followed by the records of the lines closed in the added part, the
    first of which starts with what the shorter content left open.  If the
    shorter content ends in a newline, the search of the concatenation is
    the concatenation of the two searches. *)
Theorem search_of_extended_content {lib : PyLib} (size : nat)
    (fs_first fs_second fs_both : filesystem) (filename pattern : str)
    (ignore_case : bool) (compiledPattern : Pattern) (first second : bytes) :
  0 < size ->
  re_compile pattern ignore_case = Ok compiledPattern ->
  open_rb fs_first filename = Ok {| h_rest := first; h_fault := None |} ->
  open_rb fs_second filename = Ok {| h_rest := second; h_fault := None |} ->
  open_rb fs_both filename = Ok {| h_rest := first ++ second; h_fault := None |} ->
  returned (SearchInFlat size fs_both filename pattern ignore_case)
    = returned (SearchInFlat size fs_first filename pattern ignore_case)
      ++ matching_records compiledPattern filename
           (complete_lines (fragment first ++ second))
  /\ (forall body, first = body ++ [nl] ->
      returned (SearchInFlat size fs_both filename pattern ignore_case)
      = returned (SearchInFlat size fs_first filename pattern ignore_case)
        ++ returned (SearchInFlat size fs_second filename pattern ignore_case)).
Proof.
  intros Hsize Hc Hfirst Hsecond Hboth.
  rewrite (SearchInFlat_sound size fs_first filename pattern ignore_case
             _ first Hsize Hc Hfirst).
  rewrite (SearchInFlat_sound size fs_second filename pattern ignore_case
             _ second Hsize Hc Hsecond).
  rewrite (SearchInFlat_sound size fs_both filename pattern ignore_case
             _ (first ++ second) Hsize Hc Hboth).
  unfold returned. cbn [snd].
  rewrite complete_lines_app, matching_records_app.
  split; [reflexivity|].
  intros body ->. now rewrite fragment_after_newline.
Qed.

(** X5.  A file without a byte.  Once the pattern compiles, the search of
    an empty file returns the empty list and prints nothing, for every
    chunk size; SearchInBz2 does so without calling the decompressor, so
    that an empty file is accepted although it holds no bzip2 stream. *)
Theorem empty_file_yields_nothing {lib : PyLib} (size : nat) (fs : filesystem)
    (filename pattern : str) (ignore_case : bool) (compiledPattern : Pattern) :
  re_compile pattern ignore_case = Ok compiledPattern ->
  open_rb fs filename = Ok {| h_rest := []; h_fault := None |} ->
  SearchInFlat size fs filename pattern ignore_case = ([], Ok [])
  /\ SearchInBz2 size fs filename pattern ignore_case = ([], Ok []).
Proof.
  intros Hc Ho.
  rewrite (SearchInFlat_stream size fs filename pattern ignore_case _ _ Hc Ho).
  rewrite (SearchInBz2_stream size fs filename pattern ignore_case _ _ Hc Ho).
  rewrite delivered_read, bz2_delivered_read. unfold read. cbn [h_fault h_rest].
  rewrite firstn_nil. split; reflexivity.
Qed.

(** X6.  A damaged plain file yields nothing the intact file would not
    yield.  With a read fault at an offset inside the content, the records
    returned before the error record are an initial part of the records
    the search returns for the same content without the fault. *)
Theorem damaged_file_records_are_initial {lib : PyLib} (size : nat)
    (fs_intact fs_damaged : filesystem) (filename pattern : str)
    (ignore_case : bool) (compiledPattern : Pattern) (content : bytes)
    (k : nat) (e : str) :
  0 < size ->
  re_compile pattern ignore_case = Ok compiledPattern ->
  open_rb fs_intact filename = Ok {| h_rest := content; h_fault := None |} ->
  open_rb fs_damaged filename
    = Ok {| h_rest := content; h_fault := Some (k, e) |} ->
  k <= length content ->
  exists found,
    returned (SearchInFlat size fs_damaged filename pattern ignore_case)
      = found ++ [error_record filename e]
    /\ prefix_of found
         (returned (SearchInFlat size fs_intact filename pattern ignore_case)).
Proof.
  intros Hsize Hc Hintact Hdamaged Hk.
  rewrite (SearchInFlat_sound size fs_intact filename pattern ignore_case
             _ content Hsize Hc Hintact).
  rewrite (SearchInFlat_stream size fs_damaged filename pattern ignore_case
             _ _ Hc Hdamaged).
  rewrite (delivered_fault size {| h_rest := content; h_fault := Some (k, e) |}
             k e Hsize eq_refl Hk).
  cbn [h_rest]. unfold returned, stream_records. cbn [fst snd failure_records].
  eexists. split; [reflexivity|].
  exists (matching_records compiledPattern filename
            (complete_lines
               (fragment (firstn (k / size * size) content)
                ++ skipn (k / size * size) content))).
  rewrite <- matching_records_app, <- complete_lines_app.
  now rewrite firstn_skipn.
Qed.

(** ** Path resolution *)




(** ** Dispatcher: exceptions and the worker bound *)

(** X8.  With a positive worker bound, the dispatcher re-raises the
    exception of the first file, in the order of the input list, whose
    search raised: the results of the files before it are taken first, and
    none of the files after it is looked at. *)
Theorem first_failing_search_decides {lib : PyLib} (func : search_func)
    (before after : list str) (file pattern e : str)
    (ignoreCase countOnly : bool) (buffPonies : Z) :
  (0 < buffPonies)%Z ->
  (forall earlier, In earlier before ->
     exists matches, snd (func earlier pattern ignoreCase) = Ok matches) ->
  snd (func file pattern ignoreCase) = Raised e ->
  snd (SearchFilesInParallel func (before ++ file :: after) pattern
         ignoreCase countOnly buffPonies) = Raised e.
Proof.
  intros Hw Hbefore Hfile. unfold SearchFilesInParallel.
  destruct (buffPonies <=? 0)%Z eqn:Hle; [apply Z.leb_le in Hle; lia|].
  cbn [snd]. rewrite executor_map_map, map_app, gather_app.
  rewrite gather_all_returned.
  - cbn [map]. now rewrite gather_step, Hfile.
  - apply Forall_forall. intros call Hcall.
    apply in_map_iff in Hcall as (earlier & <- & Hin). now apply Hbefore.
Qed.

Lemma first_failing_search_decides_witness :
  snd (SearchFilesInParallel (lib := Stored.lib)
         (SearchInFlat (lib := Stored.lib) 4 Sample.fs)
         (["missing.txt"; "absent.txt"] ++ "log.txt" :: ["damaged.txt"])
         "(" false false 2)
  = Raised "bad pattern: (".
Proof.
  apply (first_failing_search_decides (lib := Stored.lib)
           (SearchInFlat (lib := Stored.lib) 4 Sample.fs)
           ["missing.txt"; "absent.txt"] ["damaged.txt"] "log.txt" "("
           "bad pattern: (" false false 2).
  - lia.
  - intros earlier [<-|[<-|[]]]; eexists; reflexivity.
  - reflexivity.
Defined.

Lemma groups_cover (file : str) (allFiles : list str) :
  filter (has_rank 0) (file :: allFiles) = [] ->
  filter (has_rank 1) (file :: allFiles) = [] ->
  filter (has_rank 2) (file :: allFiles) = [] -> False.
Proof.
  cbn [filter].
  destruct (encoding_rank_cases file) as [H|[H|H]];
    apply has_rank_inv in H; rewrite H; discriminate.
Qed.

(** X9.  A worker bound that is not positive.  The orchestrator hands the
    bound to the pool as it is: with a bound of zero or less, a run with at
    least one file to search raises the error of the pool before any file
    is searched, and a run without a file returns the empty list, since the
    pool is never made. *)
Theorem nonpositive_worker_bound {lib : PyLib} (fs : filesystem)
    (allFiles : list str) (pattern : str) (ignoreCase countOnly : bool)
    (buffPonies : Z) :
  (buffPonies <= 0)%Z ->
  search_all fs allFiles pattern ignoreCase countOnly buffPonies
  = match allFiles with
    | [] => ([], Ok [])
    | _ :: _ => ([], Raised "max_workers must be greater than 0")
    end.
Proof.
  intros Hw. apply Z.leb_le in Hw.
  unfold search_all. rewrite classify_filter. cbn [app].
  destruct allFiles as [|file allFiles]; [reflexivity|].
  pose proof (groups_cover file allFiles) as Hcover.
  destruct (filter (has_rank 0) (file :: allFiles)) as [|bz bzFiles].
  - destruct (filter (has_rank 1) (file :: allFiles)) as [|gz gzFiles].
    + destruct (filter (has_rank 2) (file :: allFiles)) as [|flat flatFiles].
      * now destruct Hcover.
      * unfold pass, SearchFilesInParallel. rewrite Hw. reflexivity.
    + unfold pass, SearchFilesInParallel. rewrite Hw. reflexivity.
  - unfold pass, SearchFilesInParallel. rewrite Hw. reflexivity.
Qed.

Lemma nonpositive_worker_bound_witness :
  search_all (lib := Stored.lib) Sample.fs ["log.txt"] "error" false false 0
  = ([], Raised "max_workers must be greater than 0").
Proof.
  apply (nonpositive_worker_bound (lib := Stored.lib) Sample.fs ["log.txt"]
           "error" false false 0).
  lia.
Defined.

Lemma gather_bad_pattern (func : search_func) (fs : filesystem)
    (files : list str) (pattern e : str) (ignoreCase countOnly : bool)
    (retVal : list str) :
  (forall file, snd (func file pattern ignoreCase)
                = if isfile fs file then Raised e else Ok []) ->
  gather countOnly (map (fun file => func file pattern ignoreCase) files) retVal
  = if existsb (isfile fs) files then Raised e else Ok retVal.
Proof.
  intros Hfunc. revert retVal.
  induction files as [|file files IH]; intros retVal; [reflexivity|].
  cbn [map existsb]. rewrite gather_step, Hfunc.
  destruct (isfile fs file); [reflexivity|].
  cbn [orb aggregate]. now rewrite IH, app_nil_r.
Qed.

Lemma pass_bad_pattern {lib : PyLib} (func : search_func) (fs : filesystem)
    (files : list str) (pattern e : str) (ignoreCase countOnly : bool)
    (buffPonies : Z) (matchedLines : list str) :
  (0 < buffPonies)%Z ->
  (forall file, snd (func file pattern ignoreCase)
                = if isfile fs file then Raised e else Ok []) ->
  snd (pass func files pattern ignoreCase countOnly buffPonies matchedLines)
  = if existsb (isfile fs) files then Raised e else Ok matchedLines.
Proof.
  intros Hw Hfunc. destruct files as [|file files]; [reflexivity|].
  unfold pass, SearchFilesInParallel.
  destruct (buffPonies <=? 0)%Z eqn:Hle; [apply Z.leb_le in Hle; lia|].
  rewrite executor_map_map, (gather_bad_pattern func fs _ _ e _ _ _ Hfunc).
  destruct (existsb (isfile fs) (file :: files)); [reflexivity|].
  unfold bind, ret. cbn [snd]. now rewrite app_nil_r.
Qed.

Lemma snd_bind_raised {A B : Type} (m : io A) (k : A -> io B) (e : str) :
  snd m = Raised e -> snd (bind m k) = Raised e.
Proof. destruct m as [out [a|e']]; cbn; congruence. Qed.

Lemma existsb_groups (p : str -> bool) (allFiles : list str) :
  existsb p allFiles
  = existsb p (filter (has_rank 0) allFiles)
    || existsb p (filter (has_rank 1) allFiles)
    || existsb p (filter (has_rank 2) allFiles).
Proof.
  induction allFiles as [|file allFiles IH]; [reflexivity|].
  cbn [existsb filter]. rewrite IH.
  destruct (encoding_rank_cases file) as [H|[H|H]]; unfold has_rank; rewrite H;
    cbn [Nat.eqb existsb]; destruct (p file); cbn [orb]; try reflexivity;
    repeat (rewrite ?orb_true_r, ?orb_true_l; cbn [orb]); reflexivity.
Qed.

(** X10.  A pattern that does not compile, at the level of a run.  With
    a positive worker bound, the run raises the error of the pattern exactly
    when at least one of the files to search is a regular file; when none
    is, every searcher returns before it looks at the pattern and the run
    returns the empty list. *)
Theorem bad_pattern_aborts_run {lib : PyLib} (fs : filesystem)
    (allFiles : list str) (pattern e : str) (ignoreCase countOnly : bool)
    (buffPonies : Z) :
  (0 < buffPonies)%Z ->
  re_compile pattern ignoreCase = Raised e ->
  snd (search_all fs allFiles pattern ignoreCase countOnly buffPonies)
  = if existsb (isfile fs) allFiles then Raised e else Ok [].
Proof.
  intros Hw Hc.
  assert (Hsearchers : forall file,
    snd (SearchInFlat CHUNK_SIZE fs file pattern ignoreCase)
      = (if isfile fs file then Raised e else Ok [])
    /\ snd (SearchInBz2 CHUNK_SIZE fs file pattern ignoreCase)
      = (if isfile fs file then Raised e else Ok [])
    /\ snd (SearchInGz CHUNK_SIZE fs file pattern ignoreCase)
      = (if isfile fs file then Raised e else Ok [])).
  { intros file. destruct (isfile fs file) eqn:Hfile.
    - destruct (searchers_bad_pattern CHUNK_SIZE fs file pattern ignoreCase
                  e Hfile Hc) as (-> & -> & ->). now repeat split.
    - destruct (searchers_missing CHUNK_SIZE fs file pattern ignoreCase Hfile)
        as (-> & -> & ->). now repeat split. }
  unfold search_all. rewrite classify_filter. cbn [app].
  rewrite (existsb_groups (isfile fs) allFiles).
  pose proof (pass_bad_pattern (SearchInBz2 CHUNK_SIZE fs) fs
                (filter (has_rank 0) allFiles) pattern e ignoreCase countOnly
                buffPonies [] Hw (fun file => proj1 (proj2 (Hsearchers file))))
    as Hbz.
  destruct (existsb (isfile fs) (filter (has_rank 0) allFiles)).
  { now apply snd_bind_raised. }
  rewrite (snd_bind _ _ _ Hbz).
  pose proof (pass_bad_pattern (SearchInGz CHUNK_SIZE fs) fs
                (filter (has_rank 1) allFiles) pattern e ignoreCase countOnly
                buffPonies [] Hw (fun file => proj2 (proj2 (Hsearchers file))))
    as Hgz.
  destruct (existsb (isfile fs) (filter (has_rank 1) allFiles)).
  { now apply snd_bind_raised. }
  rewrite (snd_bind _ _ _ Hgz).
  exact (pass_bad_pattern (SearchInFlat CHUNK_SIZE fs) fs
           (filter (has_rank 2) allFiles) pattern e ignoreCase countOnly
           buffPonies [] Hw (fun file => proj1 (Hsearchers file))).
Qed.

Lemma bad_pattern_aborts_run_witness :
  snd (search_all (lib := Stored.lib) Sample.fs ["missing.gz"; "log.txt"]
         "(" false false 2) = Raised "bad pattern: ("
  /\ snd (search_all (lib := Stored.lib) Sample.fs ["missing.gz"; "absent.txt"]
            "(" false false 2) = Ok [].
Proof.
  split.
  - apply (bad_pattern_aborts_run (lib := Stored.lib) Sample.fs
             ["missing.gz"; "log.txt"] "(" "bad pattern: (" false false 2);
      [lia|reflexivity].
  - apply (bad_pattern_aborts_run (lib := Stored.lib) Sample.fs
             ["missing.gz"; "absent.txt"] "(" "bad pattern: (" false false 2);
      [lia|reflexivity].
Defined.

(** ** A run from the command line to the output *)








(** ** Single-encoding entry points *)









(** ** A failed file in count mode *)

Lemma count_of_failed_stream {lib : PyLib} (compiledPattern : Pattern)
    (filename e : str) (data : bytes) :
  has_colon filename = false ->
  let found := matching_records compiledPattern filename (complete_lines data) in
  aggregate true (stream_records compiledPattern filename (data, Some e))
  = [match found with
     | [] => "[ERROR] Could not read " ^ filename
     | _ :: _ => filename
     end ^ ":" ^ str_of_nat (S (length found))].
Proof.
  intros Hcolon. cbn zeta. unfold stream_records. cbn [fst snd failure_records].
  rewrite matching_records_texts.
  destruct (map _ (filter (re_search compiledPattern) (complete_lines data)))
    as [|text texts].
  - cbn [map app aggregate]. rewrite count_record_cons.
    unfold error_record.
    change ("[ERROR] Could not read " ^ filename ^ ": " ^ e)
      with ("[ERROR] Could not read " ^ (filename ^ String ":" (" " ^ e))).
    rewrite <- (append_assoc "[ERROR] Could not read " filename
                  (String ":" (" " ^ e))).
    rewrite before_colon_no_colon; [reflexivity|].
    now rewrite has_colon_app, Hcolon.
  - cbn [map app aggregate]. rewrite count_record_cons.
    change (filename ^ ":" ^ text) with (filename ^ String ":" text).
    rewrite (before_colon_no_colon _ _ Hcolon).
    do 3 f_equal. cbn [length]. now rewrite length_app, Nat.add_comm.
Qed.

Lemma batch_with_failed_file {lib : PyLib} (func : search_func)
    (before after : list str) (filename pattern e : str) (ignoreCase : bool)
    (compiledPattern : Pattern) (stream : bytes * option str) (buffPonies : Z) :
  (0 < buffPonies)%Z ->
  (forall file, exists matches, snd (func file pattern ignoreCase) = Ok matches) ->
  has_colon filename = false ->
  snd stream = Some e ->
  func filename pattern ignoreCase
    = ([], Ok (stream_records compiledPattern filename stream)) ->
  let found :=
    matching_records compiledPattern filename (complete_lines (fst stream)) in
  let counted files :=
    returned (SearchFilesInParallel func files pattern ignoreCase true buffPonies) in
  snd (SearchFilesInParallel func (before ++ filename :: after) pattern
         ignoreCase true buffPonies)
  = Ok (counted before
        ++ [match found with
            | [] => "[ERROR] Could not read " ^ filename
            | _ :: _ => filename
            end ^ ":" ^ str_of_nat (S (length found))]
        ++ counted after).
Proof.
  intros Hw Hall Hcolon Hfailed Hfile. cbv beta zeta.
  pose proof (fun files =>
    SearchFilesInParallel_returned func files pattern ignoreCase true
      buffPonies Hw (fun file _ => Hall file)) as Hbatch.
  rewrite (returned_ok _ _ (Hbatch before)), (returned_ok _ _ (Hbatch after)).
  rewrite Hbatch, flat_map_app. cbn [flat_map]. rewrite Hfile.
  change (returned ([], Ok (stream_records compiledPattern filename stream)))
    with (stream_records compiledPattern filename stream).
  destruct stream as [data failure]. cbn [fst snd] in *. subst failure.
  now rewrite (count_of_failed_stream compiledPattern filename e data Hcolon).
Qed.

(** X13.  In count mode the error record of a file whose stream failed
    counts as a record.  For each of the three searchers and a file with a
    colon-free name at any place of a batch, the dispatcher emits what it
    emits for the files before, then one record for the failed file, then
    what it emits for the files after.  That record is the file name with
    the number of its matching lines plus one when a line matched before
    the failure; when none matched it carries the count 1 under the
    beginning of the error message instead of the file name. *)
Theorem failed_file_in_count_mode {lib : PyLib} (size : nat) (fs : filesystem)
    (before after : list str) (filename pattern e : str) (ignore_case : bool)
    (compiledPattern : Pattern) (infile : handle) (buffPonies : Z) :
  (0 < buffPonies)%Z ->
  re_compile pattern ignore_case = Ok compiledPattern ->
  open_rb fs filename = Ok infile ->
  has_colon filename = false ->
  let record (data : bytes) :=
    let found := matching_records compiledPattern filename (complete_lines data) in
    match found with
    | [] => "[ERROR] Could not read " ^ filename
    | _ :: _ => filename
    end ^ ":" ^ str_of_nat (S (length found)) in
  let emits (func : search_func) (data : bytes) :=
    snd (SearchFilesInParallel func (before ++ filename :: after) pattern
           ignore_case true buffPonies)
    = Ok (returned (SearchFilesInParallel func before pattern ignore_case
                      true buffPonies)
          ++ [record data]
          ++ returned (SearchFilesInParallel func after pattern ignore_case
                         true buffPonies)) in
  (snd (delivered size infile) = Some e ->
   emits (SearchInFlat size fs) (fst (delivered size infile)))
  /\ (snd (delivered size (GzipFile infile)) = Some e ->
      emits (SearchInGz size fs) (fst (delivered size (GzipFile infile))))
  /\ (snd (bz2_delivered size bz2_new infile) = Some e ->
      emits (SearchInBz2 size fs) (fst (bz2_delivered size bz2_new infile))).
Proof.
  intros Hw Hc Hopen Hcolon. cbn zeta.
  pose proof (fun file =>
    searchers_return size fs file pattern ignore_case _ Hc) as Hall.
  split; [|split]; intros Hfailed.
  - exact (batch_with_failed_file (SearchInFlat size fs) before after filename
             pattern e ignore_case compiledPattern _ buffPonies Hw
             (fun file => proj1 (Hall file)) Hcolon Hfailed
             (SearchInFlat_stream size fs filename pattern ignore_case _ _ Hc Hopen)).
  - exact (batch_with_failed_file (SearchInGz size fs) before after filename
             pattern e ignore_case compiledPattern _ buffPonies Hw
             (fun file => proj2 (proj2 (Hall file))) Hcolon Hfailed
             (SearchInGz_stream size fs filename pattern ignore_case _ _ Hc Hopen)).
  - exact (batch_with_failed_file (SearchInBz2 size fs) before after filename
             pattern e ignore_case compiledPattern _ buffPonies Hw
             (fun file => proj1 (proj2 (Hall file))) Hcolon Hfailed
             (SearchInBz2_stream size fs filename pattern ignore_case _ _ Hc Hopen)).
Qed.

Lemma failed_file_in_count_mode_witness :
  snd (SearchFilesInParallel (lib := Stored.lib)
         (SearchInFlat (lib := Stored.lib) 4 Sample.fs)
         (["log.txt"] ++ "damaged.txt" :: ["quiet.txt"]) "error" false true 2)
  = Ok ["log.txt:2"; "damaged.txt:2"]
  /\ snd (SearchFilesInParallel (lib := Stored.lib)
            (SearchInGz (lib := Stored.lib) 4 Sample.fs)
            ([] ++ "broken.gz" :: ["log.txt.gz"]) "error" false true 2)
     = Ok ["[ERROR] Could not read broken.gz:1"; "log.txt.gz:2"].
Proof.
  split.
  - destruct (failed_file_in_count_mode (lib := Stored.lib) 4 Sample.fs
                ["log.txt"] ["quiet.txt"] "damaged.txt" "error"
                "[Errno 5] Input/output error" false Sample.error_pattern
                {| h_rest := Sample.content;
                   h_fault := Some (14, "[Errno 5] Input/output error") |} 2
                ltac:(lia) eq_refl eq_refl eq_refl) as (Hflat & _).
    etransitivity; [exact (Hflat eq_refl)|vm_compute; reflexivity].
  - destruct (failed_file_in_count_mode (lib := Stored.lib) 4 Sample.fs
                [] ["log.txt.gz"] "broken.gz" "error"
                "Not a gzipped file" false Sample.error_pattern
                {| h_rest := Sample.content; h_fault := None |} 2
                ltac:(lia) eq_refl eq_refl eq_refl) as (_ & Hgz & _).
    etransitivity; [exact (Hgz eq_refl)|vm_compute; reflexivity].
Defined.

(** ** The properties above on sample files *)

(** X4 on a file that first holds an open line and then grows, and on a
    file whose first part ends with a newline. *)
Lemma search_of_extended_content_witness :
  returned (SearchInFlat (lib := Stored.lib) 4
              (Stored.disk [("log.txt",
                 Stored.plain_file (Sample.tail ++ nl :: unlines Sample.lines))])
              "log.txt" "error" false)
  = returned (SearchInFlat (lib := Stored.lib) 4
                (Stored.disk [("log.txt", Stored.plain_file Sample.tail)])
                "log.txt" "error" false)
    ++ matching_records (lib := Stored.lib) Sample.error_pattern "log.txt"
         (complete_lines (fragment Sample.tail ++ nl :: unlines Sample.lines))
  /\ returned (SearchInFlat (lib := Stored.lib) 4
                 (Stored.disk [("log.txt",
                    Stored.plain_file (unlines Sample.lines ++ Sample.content))])
                 "log.txt" "error" false)
     = returned (SearchInFlat (lib := Stored.lib) 4
                   (Stored.disk [("log.txt",
                      Stored.plain_file (unlines Sample.lines))])
                   "log.txt" "error" false)
       ++ returned (SearchInFlat (lib := Stored.lib) 4
                      (Stored.disk [("log.txt", Stored.plain_file Sample.content)])
                      "log.txt" "error" false).
Proof.
  split.
  - destruct (search_of_extended_content (lib := Stored.lib) 4
                (Stored.disk [("log.txt", Stored.plain_file Sample.tail)])
                (Stored.disk [("log.txt",
                   Stored.plain_file (nl :: unlines Sample.lines))])
                (Stored.disk [("log.txt",
                   Stored.plain_file (Sample.tail ++ nl :: unlines Sample.lines))])
                "log.txt" "error" false Sample.error_pattern
                Sample.tail (nl :: unlines Sample.lines))
      as (Hgrown & _); [lia|reflexivity..|exact Hgrown].
  - destruct (search_of_extended_content (lib := Stored.lib) 4
                (Stored.disk [("log.txt", Stored.plain_file (unlines Sample.lines))])
                (Stored.disk [("log.txt", Stored.plain_file Sample.content)])
                (Stored.disk [("log.txt",
                   Stored.plain_file (unlines Sample.lines ++ Sample.content))])
                "log.txt" "error" false Sample.error_pattern
                (unlines Sample.lines) Sample.content)
      as (_ & Hclosed); [lia|reflexivity..|].
    exact (Hclosed (removelast (unlines Sample.lines)) eq_refl).
Defined.

(** X5 on an empty file with the suffix of a bzip2 file. *)
Lemma empty_file_yields_nothing_witness :
  SearchInFlat (lib := Stored.lib) 4
    (Stored.disk [("empty.bz2", Stored.plain_file [])]) "empty.bz2" "error" false
  = ([], Ok [])
  /\ SearchInBz2 (lib := Stored.lib) 4
       (Stored.disk [("empty.bz2", Stored.plain_file [])]) "empty.bz2" "error" false
     = ([], Ok []).
Proof.
  apply (empty_file_yields_nothing (lib := Stored.lib) 4
           (Stored.disk [("empty.bz2", Stored.plain_file [])])
           "empty.bz2" "error" false Sample.error_pattern);
    reflexivity.
Defined.

(** X6 on the sample file with a damaged sector and the same file intact. *)
Lemma damaged_file_records_are_initial_witness :
  exists found,
    returned (SearchInFlat (lib := Stored.lib) 4 Sample.fs
                "damaged.txt" "error" false)
    = found ++ [error_record "damaged.txt" "[Errno 5] Input/output error"]
    /\ prefix_of found
         (returned (SearchInFlat (lib := Stored.lib) 4
                      (Stored.disk [("damaged.txt",
                                     Stored.plain_file Sample.content)])
                      "damaged.txt" "error" false)).
Proof.
  apply (damaged_file_records_are_initial (lib := Stored.lib) 4
           (Stored.disk [("damaged.txt", Stored.plain_file Sample.content)])
           Sample.fs "damaged.txt" "error" false Sample.error_pattern
           Sample.content 14 "[Errno 5] Input/output error").
  - lia.
  - reflexivity.
  - reflexivity.
  - reflexivity.
  - vm_compute. lia.
Defined.

